(** * realwebapp: presence, feed broadcast and private messaging

    A shallow embedding of the realtime coordination layer of the
    application: the persistence module [db.js] (several revisions are in
    the repository), the Socket.IO handlers and the comment route of
    [server.js], and the session-based server revision.

    SQL tables are lists of rows in storage order, a query is a function
    on the database value, and a handler is a computation in a small
    monad that threads the world (database, fault schedule, clock),
    may throw, and records what it does (queries, emitted events) in a
    trace. *)

From Stdlib Require Import Lia.
From stdpp Require Import base option list strings pretty gmap sorting.

(** ** JavaScript values and event payloads *)

Inductive Value :=
  | VUndefined
  | VNull
  | VStr (s : string)
  | VNum (n : nat).

#[global] Instance Value_eq_dec : EqDecision Value.
Proof. solve_decision. Defined.

(** A JavaScript object literal / a result row: a finite map from field
    names to values. *)
Abbreviation Obj := (gmap string Value).

Inductive Payload :=
  | PObj (o : Obj)
  | PList (l : list Obj).

(** Where an event is sent: [io.emit], [io.to(id).emit], [socket.emit]. *)
Inductive Target :=
  | Broadcast
  | ToRoom (socketId : string)
  | ToSelf.

(** The SQL statements of [db.js]. *)
Inductive Sql :=
  | SelectLike | InsertLike | DeleteLike | CountLikes
  | UpsertOnline | InsertOnline | DeleteOnlineBySocket | DeleteOnlineByUser
  | SelectOnline | SelectSocketOfUser
  | InsertMessage | SelectHistory
  | InsertComment | SelectComments | SelectUserPic
  | SelectPosts.

Inductive Action :=
  | AQuery (q : Sql) (ok : bool)
  | AEmit (t : Target) (event : string) (p : Payload)
  | ARespond (status : nat) (success : bool)
  | AUnhandledRejection.

Definition is_emit (a : Action) : bool :=
  match a with AEmit _ _ _ => true | _ => false end.

Definition emitted (tr : list Action) : list Action := filter is_emit tr.

(** ** Tables *)

Record User := mkUser {
  u_user_id : string;
  u_username : string;
  u_profile_pic_url : option string }.

(** [p_username] is the [username] column that the earlier revisions of
    [createPost] store with the post; the later one leaves it to the join. *)
Record Post := mkPost {
  p_id : string;
  p_user_id : string;
  p_username : string;
  p_content : string;
  p_media_url : option string;
  p_created_at : nat }.

Record Like := mkLike {
  l_post_id : string;
  l_user_id : string }.

Record Comment := mkComment {
  c_id : string;
  c_post_id : string;
  c_user_id : string;
  c_content : string;
  c_created_at : nat }.

Record OnlineUser := mkOnline {
  o_userId : string;
  o_username : string;
  o_socketId : string }.

Record Message := mkMessage {
  m_message_id : nat;
  m_sender_id : string;
  m_recipient_id : string;
  m_message_text : string;
  m_created_at : nat }.

Record Db := mkDb {
  users : list User;
  posts : list Post;
  likes : list Like;
  comments : list Comment;
  online_users : list OnlineUser;
  messages : list Message }.

Definition empty_db : Db := mkDb [] [] [] [] [] [].

(** The schema file is not part of the repository.  The one schema fact
    the presence code depends on is which column of [online_users] carries
    the unique key that [ON DUPLICATE KEY UPDATE] reacts to; it is a
    parameter of the model. *)
Inductive OnlineKey := KeyUserId | KeySocketId.

(** ** The world and the handler monad *)

(** [faults] schedules storage failures: each call of [query] consumes the
    head, [true] meaning that [pool.execute] rejects; an exhausted schedule
    means no more failures.  [now] is the clock read by [new Date()] and by
    the column defaults of the database. *)
Record World := mkWorld {
  db : Db;
  key : OnlineKey;
  faults : list bool;
  now : nat;
  uuids : nat }.

Definition set_db (d : Db) (w : World) : World :=
  mkWorld d (key w) (faults w) (now w) (uuids w).

Definition set_faults (fs : list bool) (w : World) : World :=
  mkWorld (db w) (key w) fs (now w) (uuids w).

Inductive Result (A : Type) :=
  | Ok (a : A)
  | Throw.
Arguments Ok {A} a.
Arguments Throw {A}.

Definition M (A : Type) : Type := World → Result A * World * list Action.

#[global] Instance M_ret : MRet M := λ A a w, (Ok a, w, []).

#[global] Instance M_bind : MBind M := λ A B f m w,
  match m w with
  | (Ok a, w1, t1) =>
      match f a w1 with (r, w2, t2) => (r, w2, t1 ++ t2) end
  | (Throw, w1, t1) => (Throw, w1, t1)
  end.

Definition throw {A} : M A := λ w, (Throw, w, []).

(** [try { body } catch (err) { handler }]. *)
Definition try_catch {A} (body : M A) (handler : M A) : M A := λ w,
  match body w with
  | (Ok a, w1, t1) => (Ok a, w1, t1)
  | (Throw, w1, t1) =>
      match handler w1 with (r, w2, t2) => (r, w2, t1 ++ t2) end
  end.

(** Calling an [async] function without [await] and without [.catch]:
    its effects happen (here in place, events being processed one after
    the other), and a rejection is not seen by the caller's [try]/[catch];
    it surfaces as an unhandled promise rejection. *)
Definition fire_and_forget (m : M unit) : M unit := λ w,
  match m w with
  | (Ok _, w1, t1) => (Ok (), w1, t1)
  | (Throw, w1, t1) => (Ok (), w1, t1 ++ [AUnhandledRejection])
  end.

Definition act (a : Action) : M unit := λ w, (Ok (), w, [a]).

Definition emit (t : Target) (event : string) (p : Payload) : M unit :=
  act (AEmit t event p).

Definition get_now : M nat := λ w, (Ok (now w), w, []).

Definition get_key : M OnlineKey := λ w, (Ok (key w), w, []).

(** [uuidv4()]: a fresh identifier. *)
Definition uuid_of (n : nat) : string := "uuid-" +:+ pretty n.

Definition uuidv4 : M string := λ w,
  (Ok (uuid_of (uuids w)),
   mkWorld (db w) (key w) (faults w) (now w) (S (uuids w)), []).

(** [query] of [db.js]: run a statement; any storage failure (scheduled
    fault, or a constraint violation, for which [run] answers [None]) is
    rethrown as the generic error. *)
Definition query {A} (q : Sql) (run : Db → option (A * Db)) : M A := λ w,
  match faults w with
  | true :: fs => (Throw, set_faults fs w, [AQuery q false])
  | fs =>
      match run (db w) with
      | Some (a, d) => (Ok a, set_db d (set_faults (tail fs) w), [AQuery q true])
      | None => (Throw, set_faults (tail fs) w, [AQuery q false])
      end
  end.

(** A bind parameter that is [undefined] makes the driver throw inside
    [query]; nothing reaches the database. *)
Definition param (q : Sql) (v : option string) : M string :=
  match v with
  | Some s => mret s
  | None => act (AQuery q false);; throw
  end.

(** JavaScript truthiness of an optional string field. *)
Definition truthy (v : option string) : bool :=
  match v with
  | Some (String _ _) => true
  | Some EmptyString => false
  | None => false
  end.

(** The string behind a truthy field. *)
Definition truthy_str (v : option string) : option string :=
  if truthy v then v else None.

Definition opt_val (v : option string) : Value :=
  match v with Some s => VStr s | None => VUndefined end.

(** Property access [o.k]: [undefined] when the field is missing. *)
Definition field (o : Obj) (k : string) : Value := default VUndefined (o !! k).

(** A read-only statement and a statement that only writes. *)
Definition select {A} (q : Sql) (f : Db → A) : M A :=
  query q (λ d, Some (f d, d)).

Definition update (q : Sql) (f : Db → Db) : M unit :=
  query q (λ d, Some ((), f d)).

Definition set_likes (ls : list Like) (d : Db) : Db :=
  mkDb (users d) (posts d) ls (comments d) (online_users d) (messages d).

Definition set_comments (cs : list Comment) (d : Db) : Db :=
  mkDb (users d) (posts d) (likes d) cs (online_users d) (messages d).

Definition set_online (os : list OnlineUser) (d : Db) : Db :=
  mkDb (users d) (posts d) (likes d) (comments d) os (messages d).

Definition set_messages (ms : list Message) (d : Db) : Db :=
  mkDb (users d) (posts d) (likes d) (comments d) (online_users d) ms.

(** ** db.js *)

Module Db.

(** *** Likes *)

Definition like_of (postId userId : string) (l : Like) : Prop :=
  l_post_id l = postId ∧ l_user_id l = userId.

#[global] Instance like_of_dec p u l : Decision (like_of p u l).
Proof. unfold like_of. apply _. Defined.

(** [SELECT 1 FROM likes WHERE post_id = ? AND user_id = ?], [rows[0]]. *)
Definition getLike (postId userId : string) : M (option Like) :=
  select SelectLike (λ d, head (filter (like_of postId userId) (likes d))).

(** [INSERT INTO likes (post_id, user_id) VALUES (?, ?)]. *)
Definition addLike (postId userId : string) : M unit :=
  update InsertLike (λ d, set_likes (likes d ++ [mkLike postId userId]) d).

(** [DELETE FROM likes WHERE post_id = ? AND user_id = ?]. *)
Definition removeLike (postId userId : string) : M unit :=
  update DeleteLike
    (λ d, set_likes (filter (λ l, ¬ like_of postId userId l) (likes d)) d).

(** The aggregate [SELECT COUNT( * ) FROM likes WHERE post_id = ?]. *)
Definition countLikes (postId : string) (d : Db) : nat :=
  length (filter (λ l, l_post_id l = postId) (likes d)).

Definition getLikeCount (postId : string) : M nat :=
  select CountLikes (countLikes postId).

(** *** Online users *)

(** Does row [r] collide, on the unique key of the table, with a new row
    for user [u] on socket [c]? *)
Definition dup_key (k : OnlineKey) (u c : string) (r : OnlineUser) : bool :=
  match k with
  | KeyUserId => bool_decide (o_userId r = u)
  | KeySocketId => bool_decide (o_socketId r = c)
  end.

(** [INSERT ... VALUES (u, n, c) ON DUPLICATE KEY UPDATE socketId = c]. *)
Definition upsert_online (k : OnlineKey) (u n c : string)
    (rows : list OnlineUser) : list OnlineUser :=
  if existsb (dup_key k u c) rows
  then (λ r, if dup_key k u c r
             then mkOnline (o_userId r) (o_username r) c else r) <$> rows
  else rows ++ [mkOnline u n c].

Definition setOnlineStatus (userId username socketId : string) : M unit :=
  k ← get_key;
  update UpsertOnline
    (λ d, set_online (upsert_online k userId username socketId (online_users d)) d).

(** [DELETE FROM online_users WHERE socketId = ?]. *)
Definition removeOnlineStatusBySocketId (socketId : string) : M unit :=
  update DeleteOnlineBySocket
    (λ d, set_online (filter (λ r, o_socketId r ≠ socketId) (online_users d)) d).

(** [DELETE FROM online_users WHERE userId = ?]. *)
Definition removeOnlineStatusByUserId (userId : string) : M unit :=
  update DeleteOnlineByUser
    (λ d, set_online (filter (λ r, o_userId r ≠ userId) (online_users d)) d).

Definition online_row (r : OnlineUser) : Obj :=
  {[ "userId" := VStr (o_userId r);
     "username" := VStr (o_username r);
     "socketId" := VStr (o_socketId r) ]}.

(** [SELECT userId, username, socketId FROM online_users]. *)
Definition getOnlineUsers : M (list Obj) :=
  select SelectOnline (λ d, online_row <$> online_users d).

(** [SELECT socketId FROM online_users WHERE userId = ?];
    [rows[0] ? rows[0].socketId : null]. *)
Definition resolveSocket (userId : string) (d : Db) : option string :=
  o_socketId <$> head (filter (λ r, o_userId r = userId) (online_users d)).

Definition getRecipientSocketId (recipientId : string) : M (option string) :=
  select SelectSocketOfUser (resolveSocket recipientId).

(** *** Private messages *)

(** [INSERT INTO messages (sender_id, recipient_id, message_text)]: the
    id is the next auto-increment value and [created_at] defaults to the
    current time.  Answers [affectedRows > 0]. *)
Definition insert_message (t : nat) (s r text : string) (d : Db) : Db :=
  set_messages
    (messages d ++
     [mkMessage (S (max_list (m_message_id <$> messages d))) s r text t]) d.

Definition savePrivateMessage (senderId recipientId message : string) : M bool :=
  t ← get_now;
  update InsertMessage (insert_message t senderId recipientId message);;
  mret true.

Record HistoryRow := mkHistoryRow {
  h_message_id : nat;
  h_sender_id : string;
  h_message : string;
  h_timestamp : nat }.

Definition history_row (m : Message) : HistoryRow :=
  mkHistoryRow (m_message_id m) (m_sender_id m) (m_message_text m) (m_created_at m).

(** The [WHERE] clause of [getChatHistory] with its four parameters
    [senderId, recipientId, recipientId, senderId]. *)
Definition between (a b : string) (m : Message) : Prop :=
  (m_sender_id m = a ∧ m_recipient_id m = b) ∨
  (m_sender_id m = b ∧ m_recipient_id m = a).

#[global] Instance between_dec a b m : Decision (between a b m).
Proof. unfold between. apply _. Defined.

Definition older (m1 m2 : Message) : Prop := m_created_at m1 ≤ m_created_at m2.

#[global] Instance older_dec m1 m2 : Decision (older m1 m2).
Proof. unfold older. apply _. Defined.

(** [... WHERE ... ORDER BY created_at ASC]. *)
Definition chatHistory (a b : string) (d : Db) : list HistoryRow :=
  history_row <$> merge_sort older (filter (between a b) (messages d)).


(** *** Comments *)

Definition createComment (commentId postId userId content : string) : M bool :=
  t ← get_now;
  update InsertComment
    (λ d, set_comments
            (comments d ++ [mkComment commentId postId userId content t]) d);;
  mret true.

Record CommentRow := mkCommentRow {
  cr_id : string;
  cr_post_id : string;
  cr_user_id : string;
  cr_content : string;
  cr_created_at : nat;
  cr_username : string;
  cr_profilePicUrl : option string }.

Definition comment_row (c : Comment) (u : User) : CommentRow :=
  mkCommentRow (c_id c) (c_post_id c) (c_user_id c) (c_content c)
    (c_created_at c) (u_username u) (u_profile_pic_url u).

Definition cr_older (r1 r2 : CommentRow) : Prop :=
  cr_created_at r1 ≤ cr_created_at r2.

#[global] Instance cr_older_dec r1 r2 : Decision (cr_older r1 r2).
Proof. unfold cr_older. apply _. Defined.

(** [FROM comments c JOIN users u ON c.user_id = u.user_id
     WHERE c.post_id = ? ORDER BY c.created_at ASC]. *)
Definition commentsByPostId (postId : string) (d : Db) : list CommentRow :=
  merge_sort cr_older
    (c ← filter (λ c, c_post_id c = postId) (comments d);
     u ← filter (λ u, u_user_id u = c_user_id c) (users d);
     [comment_row c u]).

Definition getCommentsByPostId (postId : string) : M (list CommentRow) :=
  select SelectComments (commentsByPostId postId).

(** *** The feed *)

Record PostRow := mkPostRow {
  pr_id : string;
  pr_user_id : string;
  pr_content : string;
  pr_media_url : option string;
  pr_created_at : nat;
  pr_username : string;
  pr_profilePicUrl : option string;
  pr_likesCount : nat }.

(** One joined and grouped row.  [id] is the primary key of [posts] and
    [user_id] that of [users], so [JOIN users] pairs a post with its one
    author (a post without a user row is dropped), [GROUP BY p.id] keeps
    one row per post, and [COUNT(l.user_id)] over the [LEFT JOIN] counts
    the likes of the post. *)
Definition author (p : Post) (d : Db) : option User :=
  head (filter (λ u, u_user_id u = p_user_id p) (users d)).

Definition post_row (d : Db) (p : Post) : option PostRow :=
  u ← author p d;
  Some (mkPostRow (p_id p) (p_user_id p) (p_content p) (p_media_url p)
          (p_created_at p) (u_username u) (u_profile_pic_url u)
          (countLikes (p_id p) d)).

Definition newer (r1 r2 : PostRow) : Prop :=
  pr_created_at r2 ≤ pr_created_at r1.

#[global] Instance newer_dec r1 r2 : Decision (newer r1 r2).
Proof. unfold newer. apply _. Defined.

(** [... ORDER BY p.created_at DESC LIMIT 20], then the [map] that
    re-parses [likesCount] (the identity on a number). *)
Definition allPosts (d : Db) : list PostRow :=
  take 20 (merge_sort newer (omap (post_row d) (posts d))).

Definition getAllPosts : M (list PostRow) := select SelectPosts allPosts.

End Db.

(** ** The revision of db.js with password reset and profile pictures *)

Module DbReset.

(** [registerOnlineUser]: "Upsert logic: Delete if exists, then insert."
    The plain [INSERT] fails on a row that collides on the unique key. *)
Definition insert_online (k : OnlineKey) (u n c : string)
    (rows : list OnlineUser) : option (list OnlineUser) :=
  if existsb (Db.dup_key k u c) rows then None
  else Some (rows ++ [mkOnline u n c]).

Definition registerOnlineUser (userId username socketId : string) : M bool :=
  update DeleteOnlineByUser
    (λ d, set_online (filter (λ r, o_userId r ≠ userId) (online_users d)) d);;
  k ← get_key;
  query InsertOnline
    (λ d, rows ← insert_online k userId username socketId (online_users d);
          Some ((), set_online rows d));;
  mret true.

(** [DELETE FROM online_users WHERE socketId = ?], [affectedRows > 0]. *)
Definition unregisterOnlineUser (socketId : string) : M bool :=
  query DeleteOnlineBySocket
    (λ d, Some (bool_decide (Exists (λ r, o_socketId r = socketId) (online_users d)),
                set_online (filter (λ r, o_socketId r ≠ socketId) (online_users d)) d)).

Definition online_row (r : OnlineUser) : Obj :=
  {[ "userId" := VStr (o_userId r); "username" := VStr (o_username r) ]}.

(** [SELECT userId, username FROM online_users]. *)
Definition getOnlineUsers : M (list Obj) :=
  select SelectOnline (λ d, online_row <$> online_users d).

(** [getAllPosts] of this revision: the same join, [p.username] from the
    post, the like count as a subquery, newest first, and no [LIMIT]. *)
Definition post_row (d : Db) (p : Post) : option Db.PostRow :=
  u ← Db.author p d;
  Some (Db.mkPostRow (p_id p) (p_user_id p) (p_content p) (p_media_url p)
          (p_created_at p) (p_username p) (u_profile_pic_url u)
          (Db.countLikes (p_id p) d)).

Definition allPosts (d : Db) : list Db.PostRow :=
  merge_sort Db.newer (omap (post_row d) (posts d)).

Definition getAllPosts : M (list Db.PostRow) := select SelectPosts allPosts.

End DbReset.

(** ** server.js: Socket.IO handlers *)

(** The per-connection object: [socket.id] and the [socket.userId] field
    that [userOnline] attaches. *)
Record Socket := mkSocket {
  sock_id : string;
  sock_userId : option string }.

Record LikeData := mkLikeData {
  ld_postId : option string;
  ld_userId : option string }.

Record OnlineData := mkOnlineData {
  od_userId : option string;
  od_username : option string }.

Record PrivateMsg := mkPrivateMsg {
  pm_senderId : option string;
  pm_recipientId : option string;
  pm_message : option string }.

(** The JSON body of [POST /api/comment]. *)
Record CommentBody := mkCommentBody {
  cb_post_id : option string;
  cb_user_id : option string;
  cb_content : option string;
  cb_username : option string;
  cb_profilePicUrl : option string }.

(** [Promise.all(ms)] over computations that have all been started: each
    one runs, in order, whether or not an earlier one rejected, and the
    whole rejects when any of them does. *)
Fixpoint promise_all {A} (ms : list (M A)) : M (list A) := λ w,
  match ms with
  | [] => (Ok [], w, [])
  | m :: ms =>
      match m w with
      | (r, w1, t1) =>
          match promise_all ms w1 with
          | (rs, w2, t2) =>
              (match r, rs with
               | Ok a, Ok l => Ok (a :: l)
               | _, _ => Throw
               end, w2, t1 ++ t2)
          end
      end
  end.

Module Server.

(** [users.map(u => ({ userId: u.userId, username: u.username }))]. *)
Definition userPayload (u : Obj) : Obj :=
  {[ "userId" := field u "userId"; "username" := field u "username" ]}.

Definition broadcastOnlineUsers : M unit :=
  users ← Db.getOnlineUsers;
  emit Broadcast "onlineUsers" (PList (userPayload <$> users)).

(** [socket.on('userOnline', ...)]; [broadcastOnlineUsers()] is called
    without [await]. *)
Definition userOnline (data : OnlineData) (s : Socket) : M Socket :=
  match truthy_str (od_userId data), truthy_str (od_username data) with
  | Some userId, Some username =>
      try_catch
        (Db.setOnlineStatus userId username (sock_id s);;
         fire_and_forget broadcastOnlineUsers;;
         mret (mkSocket (sock_id s) (Some userId)))
        (mret s)
  | _, _ => mret s
  end.

(** [socket.on('userOffline', ...)]. *)
Definition userOffline (userId : option string) (s : Socket) : M Socket :=
  match truthy_str userId with
  | Some u =>
      try_catch
        (Db.removeOnlineStatusByUserId u;;
         fire_and_forget broadcastOnlineUsers;;
         mret (mkSocket (sock_id s) None))
        (mret s)
  | None => mret s
  end.

(** [socket.on('disconnect', ...)]. *)
Definition disconnect (s : Socket) : M Socket :=
  if truthy (sock_userId s)
  then
    try_catch
      (Db.removeOnlineStatusBySocketId (sock_id s);;
       fire_and_forget broadcastOnlineUsers)
      (mret ());;
    mret s
  else mret s.

Definition fullMsg (senderId recipientId message : string) (t : nat) : Payload :=
  PObj {[ "sender_id" := VStr senderId;
          "recipient_id" := VStr recipientId;
          "message" := VStr message;
          "timestamp" := VNum t ]}.

(** [socket.on('privateMessage', ...)]. *)
Definition privateMessage (msg : PrivateMsg) (s : Socket) : M Socket :=
  match truthy_str (pm_senderId msg), truthy_str (pm_recipientId msg),
        truthy_str (pm_message msg) with
  | Some senderId, Some recipientId, Some message =>
      try_catch
        (Db.savePrivateMessage senderId recipientId message;;
         t ← get_now;
         let m := fullMsg senderId recipientId message t in
         recipientSocketId ← Db.getRecipientSocketId recipientId;
         (if truthy_str recipientSocketId is Some sid
          then emit (ToRoom sid) "newPrivateMessage" m
          else mret ());;
         emit ToSelf "newPrivateMessage" m)
        (mret ());;
      mret s
  | _, _, _ => mret s
  end.

Definition likeUpdate (postId : string) (newCount : nat) : Payload :=
  PObj {[ "postId" := VStr postId; "newCount" := VNum newCount ]}.

(** [socket.on('likePost', ...)].  The payload is not validated; a
    missing field reaches the first query as an [undefined] parameter. *)
Definition likePost (data : LikeData) (s : Socket) : M Socket :=
  try_catch
    (postId ← param SelectLike (ld_postId data);
     userId ← param SelectLike (ld_userId data);
     row ← Db.getLike postId userId;
     (if row is Some _
      then Db.removeLike postId userId
      else Db.addLike postId userId);;
     newCount ← Db.getLikeCount postId;
     emit Broadcast "likeUpdate" (likeUpdate postId newCount))
    (mret ());;
  mret s.

(** The comment object built from the request body:
    [{ id, post_id, user_id, username, content, profilePicUrl, created_at }]
    with [username] and [profilePicUrl] re-destructured from [req.body]. *)
Definition newComment (commentId post_id user_id content : string)
    (body : CommentBody) (t : nat) : Obj :=
  {[ "id" := VStr commentId;
     "post_id" := VStr post_id;
     "user_id" := VStr user_id;
     "username" := opt_val (cb_username body);
     "content" := VStr content;
     "profilePicUrl" := opt_val (cb_profilePicUrl body);
     "created_at" := VNum t ]}.

(** [app.post('/api/comment', ...)]. *)
Definition postComment (body : CommentBody) : M unit :=
  match truthy_str (cb_post_id body), truthy_str (cb_user_id body),
        truthy_str (cb_content body) with
  | Some post_id, Some user_id, Some content =>
      try_catch
        (commentId ← uuidv4;
         success ← Db.createComment commentId post_id user_id content;
         if success : bool
         then
           t ← get_now;
           emit Broadcast "commentUpdate"
             (PObj (newComment commentId post_id user_id content body t));;
           act (ARespond 200 true)
         else act (ARespond 500 false))
        (act (ARespond 500 false))
  | _, _, _ => act (ARespond 400 false)
  end.

(** One post of the feed response:
    [{ ...post, id: post.id, isLiked: !!hasLiked, like_count }]. *)
Record FeedPost := mkFeedPost {
  fp_post : Db.PostRow;
  fp_isLiked : bool;
  fp_like_count : nat }.

(** [app.get('/api/posts', ...)]: the status of the response and, on
    success, the posts of its body. *)
Definition getPosts (userId : option string) : M (nat * option (list FeedPost)) :=
  match truthy_str userId with
  | None => mret (400, None)
  | Some userId =>
      try_catch
        (rawPosts ← Db.getAllPosts;
         posts ← promise_all
                   ((λ post,
                       hasLiked ← Db.getLike (Db.pr_id post) userId;
                       mret (mkFeedPost post (bool_decide (is_Some hasLiked))
                               (Db.pr_likesCount post))) <$> rawPosts);
         mret (200, Some posts))
        (mret (500, None))
  end.

(** The inbound events of one connection. *)
Inductive Inbound :=
  | UserOnline (data : OnlineData)
  | UserOffline (userId : option string)
  | Disconnect
  | PrivateMessage (msg : PrivateMsg)
  | LikePost (data : LikeData).

Definition handle (e : Inbound) (s : Socket) : M Socket :=
  match e with
  | UserOnline data => userOnline data s
  | UserOffline userId => userOffline userId s
  | Disconnect => disconnect s
  | PrivateMessage msg => privateMessage msg s
  | LikePost data => likePost data s
  end.

End Server.

(** ** The session-based revision of server.js *)

Record SessionUser := mkSessionUser {
  su_id : string;
  su_username : string;
  su_profilePicUrl : option string }.

Module SessionServer.

(** [io.on('connection', ...)]: for an authenticated session,
    [db.setOnlineStatus(...).then(async () => { io.emit('onlineUsers',
    await db.getOnlineUsers()) }).catch(...)]. *)
Definition connection (user : option SessionUser) (s : Socket) : M unit :=
  match user with
  | Some u =>
      try_catch
        (Db.setOnlineStatus (su_id u) (su_username u) (sock_id s);;
         onlineUsers ← Db.getOnlineUsers;
         emit Broadcast "onlineUsers" (PList onlineUsers))
        (mret ())
  | None => mret ()
  end.

(** [socket.on('disconnect', ...)] of this revision. *)
Definition disconnect (s : Socket) : M unit :=
  try_catch
    (Db.removeOnlineStatusBySocketId (sock_id s);;
     onlineUsers ← Db.getOnlineUsers;
     emit Broadcast "onlineUsers" (PList onlineUsers))
    (mret ()).

End SessionServer.

(** ** The revision of server.js with password reset *)

Module ResetServer.

(** [broadcastOnlineUsers] over the rows of this revision's
    [getOnlineUsers]. *)
Definition broadcastOnlineUsers : M unit :=
  users ← DbReset.getOnlineUsers;
  emit Broadcast "onlineUsers" (PList (Server.userPayload <$> users)).

(** [socket.on('userOnline', ...)]: nothing is attached to the socket. *)
Definition userOnline (data : OnlineData) (s : Socket) : M unit :=
  match truthy_str (od_userId data), truthy_str (od_username data) with
  | Some userId, Some username =>
      try_catch
        (DbReset.registerOnlineUser userId username (sock_id s);;
         fire_and_forget broadcastOnlineUsers)
        (mret ())
  | _, _ => mret ()
  end.

(** [socket.on('disconnect', ...)]: the broadcast is guarded by the
    result of the delete. *)
Definition disconnect (s : Socket) : M unit :=
  try_catch
    (success ← DbReset.unregisterOnlineUser (sock_id s);
     if success : bool
     then fire_and_forget broadcastOnlineUsers
     else mret ())
    (mret ()).

End ResetServer.

(** ** Accounts: signup, login, password reset, profile picture

    The functions of the db.js revision with password reset that work on
    [users] and [password_reset_tokens], and the routes of the server
    revisions that call them.  They have a store, statements and effects
    of their own. *)

Module Accounts.

Record Account := mkAccount {
  a_user_id : string;
  a_email : string;
  a_password_hash : string;
  a_username : string;
  a_profile_pic_url : option string }.

(** [expires_at] in whole seconds, as the DATETIME column holds it. *)
Record ResetToken := mkResetToken {
  rt_user_id : string;
  rt_token : string;
  rt_expires_at : nat }.

Record Store := mkStore {
  accounts : list Account;
  reset_tokens : list ResetToken }.

Definition set_accounts (l : list Account) (st : Store) : Store :=
  mkStore l (reset_tokens st).

Definition set_tokens (l : list ResetToken) (st : Store) : Store :=
  mkStore (accounts st) l.

Inductive Stmt :=
  | SelectUserByEmail | InsertUser
  | DeleteTokensOfUser | InsertToken | SelectUserByToken
  | UpdatePassword | DeleteToken
  | SelectProfilePic | UpdateProfilePic.

(** A JavaScript error object, as far as the routes look at it: its
    [code]. *)
Record JsError := mkError { err_code : option string }.

(** [new Error('Could not execute database query.')]: no [code]. *)
Definition query_error : JsError := mkError None.

Inductive Effect :=
  | EQuery (q : Stmt) (ok : bool)
  | EMail (to : option string) (token : string) (sent : bool)
  | EBroadcast (event : string) (p : Payload).

(** [db_faults] and [mail_faults] schedule the failures of the database
    and of the mail transport; [clock_ms] is [Date.now()], and the
    database clock [NOW()] is the same clock in seconds (UTC). *)
Record Env := mkEnv {
  store : Store;
  db_faults : list bool;
  mail_faults : list bool;
  clock_ms : nat;
  next_uuid : nat;
  next_salt : nat }.

Definition set_store (st : Store) (e : Env) : Env :=
  mkEnv st (db_faults e) (mail_faults e) (clock_ms e) (next_uuid e) (next_salt e).

Definition set_db_faults (fs : list bool) (e : Env) : Env :=
  mkEnv (store e) fs (mail_faults e) (clock_ms e) (next_uuid e) (next_salt e).

Definition set_clock (t : nat) (e : Env) : Env :=
  mkEnv (store e) (db_faults e) (mail_faults e) t (next_uuid e) (next_salt e).

Inductive Outcome (T : Type) :=
  | Return (a : T)
  | Raise (err : JsError).
Arguments Return {T} a.
Arguments Raise {T} err.

Definition Acc (T : Type) : Type := Env → Outcome T * Env * list Effect.

#[global] Instance Acc_ret : MRet Acc := λ T a e, (Return a, e, []).

#[global] Instance Acc_bind : MBind Acc := λ T U f m e,
  match m e with
  | (Return a, e1, t1) =>
      match f a e1 with (r, e2, t2) => (r, e2, t1 ++ t2) end
  | (Raise err, e1, t1) => (Raise err, e1, t1)
  end.

(** [try { body } catch (error) { handler(error) }]. *)
Definition try_catch {T} (body : Acc T) (handler : JsError → Acc T) : Acc T :=
  λ e,
  match body e with
  | (Return a, e1, t1) => (Return a, e1, t1)
  | (Raise err, e1, t1) =>
      match handler err e1 with (r, e2, t2) => (r, e2, t1 ++ t2) end
  end.

Definition get_clock : Acc nat := λ e, (Return (clock_ms e), e, []).

(** [io.emit(event, payload)]. *)
Definition broadcast (event : string) (p : Payload) : Acc unit := λ e,
  (Return (), e, [EBroadcast event p]).

Definition uuidv4 : Acc string := λ e,
  (Return (uuid_of (next_uuid e)),
   mkEnv (store e) (db_faults e) (mail_faults e) (clock_ms e)
     (S (next_uuid e)) (next_salt e), []).

(** [query]: a failed statement (scheduled fault, or a constraint
    violation, for which [run] answers [None]) is logged and rethrown as
    the generic error; the driver's error and its [code] are dropped. *)
Definition query {T} (q : Stmt) (run : Store → option (T * Store)) : Acc T :=
  λ e,
  match db_faults e with
  | true :: fs => (Raise query_error, set_db_faults fs e, [EQuery q false])
  | fs =>
      match run (store e) with
      | Some (a, st) =>
          (Return a, set_store st (set_db_faults (tail fs) e), [EQuery q true])
      | None => (Raise query_error, set_db_faults (tail fs) e, [EQuery q false])
      end
  end.

(** [transporter.sendMail(mailOptions)] inside its own [try]/[catch]:
    a failure is logged and swallowed. *)
Definition sendMail (to : option string) (token : string) : Acc unit := λ e,
  match mail_faults e with
  | true :: fs =>
      (Return (), mkEnv (store e) (db_faults e) fs (clock_ms e) (next_uuid e)
                    (next_salt e), [EMail to token false])
  | fs =>
      (Return (), mkEnv (store e) (db_faults e) (tail fs) (clock_ms e)
                    (next_uuid e) (next_salt e), [EMail to token true])
  end.

(** *** The persistence functions *)

(** The columns [findUserByEmail] selects: user_id, password_hash,
    username (the email is not among them). *)
Record LoginRow := mkLoginRow {
  lr_user_id : string;
  lr_password_hash : string;
  lr_username : string }.

Definition login_row (a : Account) : LoginRow :=
  mkLoginRow (a_user_id a) (a_password_hash a) (a_username a).

(** [SELECT user_id, password_hash, username FROM users WHERE email = ?];
    [rows[0]]. *)
Definition userByEmail (email : string) (st : Store) : option LoginRow :=
  login_row <$> head (filter (λ a, a_email a = email) (accounts st)).

Definition findUserByEmail (email : string) : Acc (option LoginRow) :=
  query SelectUserByEmail (λ st, Some (userByEmail email st, st)).

(** The unique keys of [users].  The schema is not in the repository; the
    signup route answers a duplicate with "Email or Username already
    taken", and user_id is the key the other tables refer to. *)
Definition taken (userId email username : string) (st : Store) : bool :=
  existsb (λ a, bool_decide (a_user_id a = userId)
                || bool_decide (a_email a = email)
                || bool_decide (a_username a = username)) (accounts st).

(** [INSERT INTO users (user_id, email, password_hash, username)];
    [affectedRows > 0]. *)
Definition createUser (userId email passwordHash username : string) : Acc bool :=
  query InsertUser
    (λ st, if taken userId email username st then None
           else Some (true,
                      set_accounts
                        (accounts st
                         ++ [mkAccount userId email passwordHash username None])
                        st)).

(** [new Date(Date.now() + 60 * 60 * 1000).toISOString().slice(0, 19)]:
    one hour from now, cut to whole seconds. *)
Definition expiry (now_ms : nat) : nat := (now_ms + 60 * 60 * 1000) / 1000.

(** [savePasswordResetToken]: delete the tokens of the user, then insert
    the new one. *)
Definition savePasswordResetToken (userId token : string) : Acc bool :=
  t ← get_clock;
  query DeleteTokensOfUser
    (λ st, Some ((), set_tokens
                       (filter (λ r, rt_user_id r ≠ userId) (reset_tokens st)) st));;
  query InsertToken
    (λ st, Some (true,
                 set_tokens
                   (reset_tokens st ++ [mkResetToken userId token (expiry t)]) st)).

(** The columns [findUserByToken] selects. *)
Record TokenRow := mkTokenRow {
  tr_user_id : string;
  tr_username : string;
  tr_email : string }.

(** [FROM users u JOIN password_reset_tokens prt ON u.user_id = prt.user_id
     WHERE prt.token = ? AND prt.expires_at > NOW()]; [rows[0]]. *)
Definition userByToken (token : string) (now_s : nat) (st : Store) : option TokenRow :=
  head (a ← accounts st;
        r ← filter (λ r, rt_user_id r = a_user_id a ∧ rt_token r = token
                         ∧ now_s < rt_expires_at r) (reset_tokens st);
        [mkTokenRow (a_user_id a) (a_username a) (a_email a)]).

Definition findUserByToken (token : string) : Acc (option TokenRow) :=
  t ← get_clock;
  query SelectUserByToken (λ st, Some (userByToken token (t / 1000) st, st)).

(** [UPDATE users SET password_hash = ? WHERE user_id = ?];
    [affectedRows > 0], the driver counting the rows the WHERE clause
    matches. *)
Definition set_hash (userId newHash : string) (a : Account) : Account :=
  if decide (a_user_id a = userId)
  then mkAccount (a_user_id a) (a_email a) newHash (a_username a)
         (a_profile_pic_url a)
  else a.

Definition updateUserPassword (userId newHash : string) : Acc bool :=
  query UpdatePassword
    (λ st, Some (existsb (λ a, bool_decide (a_user_id a = userId)) (accounts st),
                 set_accounts (set_hash userId newHash <$> accounts st) st)).

(** [DELETE FROM password_reset_tokens WHERE token = ?]. *)
Definition deletePasswordResetToken (token : string) : Acc bool :=
  query DeleteToken
    (λ st, Some (existsb (λ r, bool_decide (rt_token r = token)) (reset_tokens st),
                 set_tokens (filter (λ r, rt_token r ≠ token) (reset_tokens st)) st)).

(** [SELECT profile_pic_url FROM users WHERE user_id = ?];
    [rows[0] ? rows[0].profile_pic_url : null]. *)
Definition profilePic (userId : string) (st : Store) : option string :=
  a ← head (filter (λ a, a_user_id a = userId) (accounts st));
  a_profile_pic_url a.

Definition getUserProfilePic (userId : string) : Acc (option string) :=
  query SelectProfilePic (λ st, Some (profilePic userId st, st)).

(** [UPDATE users SET profile_pic_url = ? WHERE user_id = ?]. *)
Definition set_pic (userId url : string) (a : Account) : Account :=
  if decide (a_user_id a = userId)
  then mkAccount (a_user_id a) (a_email a) (a_password_hash a) (a_username a)
         (Some url)
  else a.

Definition updateUserProfilePic (userId url : string) : Acc bool :=
  query UpdateProfilePic
    (λ st, Some (existsb (λ a, bool_decide (a_user_id a = userId)) (accounts st),
                 set_accounts (set_pic userId url <$> accounts st) st)).

(** *** The routes *)

(** [res.status(status).json({ success, message, ... })]. *)
Record Reply := mkReply {
  status : nat;
  success : bool;
  message : string }.

(** [s.length] of a JavaScript string counts UTF-16 code units.  The
    strings of this file are byte strings that hold the UTF-8 encoding of
    the text: an ASCII byte and the lead byte of a sequence of two or
    three bytes stand for one code unit, the lead byte of a sequence of
    four bytes (a code point beyond U+FFFF, a surrogate pair in UTF-16)
    for two, and a continuation byte for none. *)
Definition utf16_units (c : Ascii.ascii) : nat :=
  match c with
  | Ascii.Ascii _ _ _ _ b4 b5 b6 b7 =>
      if negb b7 then 1
      else if negb b6 then 0
      else if b5 && b4 then 2
      else 1
  end.

Fixpoint js_length (s : string) : nat :=
  match s with
  | EmptyString => 0
  | String c s => utf16_units c + js_length s
  end.

Section Bcrypt.

(** The bcrypt library: [hash] with the salt it draws, and [compare]. *)
Variable hash : nat → string → string.
Variable compare : string → string → bool.

Definition bcrypt_hash (password : string) : Acc string := λ e,
  (Return (hash (next_salt e) password),
   mkEnv (store e) (db_faults e) (mail_faults e) (clock_ms e) (next_uuid e)
     (S (next_salt e)), []).

(** [app.post('/api/signup', ...)]. *)
Definition signup (email password username : option string) : Acc Reply :=
  match truthy_str email, truthy_str password, truthy_str username with
  | Some email, Some password, Some username =>
      try_catch
        (hashedPassword ← bcrypt_hash password;
         userId ← uuidv4;
         ok ← createUser userId email hashedPassword username;
         if ok : bool
         then mret (mkReply 200 true "User created successfully.")
         else mret (mkReply 500 false
                      "Failed to create user due to database issue."))
        (λ error,
           if decide (err_code error = Some "ER_DUP_ENTRY")
           then mret (mkReply 409 false "Email or Username already taken.")
           else mret (mkReply 500 false "Server error."))
  | _, _, _ => mret (mkReply 400 false "All fields are required.")
  end.

(** [app.post('/api/login', ...)]. *)
Definition login (email password : option string) : Acc Reply :=
  match truthy_str email, truthy_str password with
  | Some email, Some password =>
      try_catch
        (user ← findUserByEmail email;
         match user with
         | None => mret (mkReply 401 false "Invalid credentials.")
         | Some user =>
             if compare password (lr_password_hash user)
             then mret (mkReply 200 true "Login successful.")
             else mret (mkReply 401 false "Invalid credentials.")
         end)
        (λ _, mret (mkReply 500 false "Server error."))
  | _, _ => mret (mkReply 400 false "Email and password are required.")
  end.

Definition reset_link_sent : string :=
  "A password reset link has been sent to your email address.".

(** [app.post('/api/forgot-password', ...)].  The mail goes [to:
    user.email], a field that the row of [findUserByEmail] does not
    have. *)
Definition forgotPassword (email : option string) : Acc Reply :=
  match truthy_str email with
  | Some email =>
      try_catch
        (user ← findUserByEmail email;
         match user with
         | None => mret (mkReply 200 true reset_link_sent)
         | Some user =>
             resetToken ← uuidv4;
             savePasswordResetToken (lr_user_id user) resetToken;;
             sendMail None resetToken;;
             mret (mkReply 200 true reset_link_sent)
         end)
        (λ _, mret (mkReply 500 false
                      "Server error during password reset request."))
  | None => mret (mkReply 400 false "Email is required.")
  end.

(** [app.post('/api/reset-password', ...)]. *)
Definition resetPassword (token newPassword : option string) : Acc Reply :=
  match truthy_str token, truthy_str newPassword with
  | Some token, Some newPassword =>
      if decide (js_length newPassword < 8)
      then mret (mkReply 400 false
                   "New password must be at least 8 characters long.")
      else
        try_catch
          (user ← findUserByToken token;
           match user with
           | None => mret (mkReply 400 false "Invalid or expired reset token.")
           | Some user =>
               newHashedPassword ← bcrypt_hash newPassword;
               updateUserPassword (tr_user_id user) newHashedPassword;;
               deletePasswordResetToken token;;
               mret (mkReply 200 true
                       "Password has been successfully reset. Please log in.")
           end)
          (λ _, mret (mkReply 500 false "Server error during password reset."))
  | _, _ => mret (mkReply 400 false "Token and new password are required.")
  end.

End Bcrypt.

(** [app.post('/api/profile/picture', ...)] of the revision that
    broadcasts the update. *)
Definition profileUpdate (userId url : string) : Payload :=
  PObj {[ "userId" := VStr userId; "profilePicUrl" := VStr url ]}.

Definition updatePicture (userId url : option string) : Acc Reply :=
  match truthy_str userId, truthy_str url with
  | Some userId, Some url =>
      try_catch
        (ok ← updateUserProfilePic userId url;
         if ok : bool
         then
           broadcast "profileUpdate" (profileUpdate userId url);;
           mret (mkReply 200 true "Profile picture updated successfully.")
         else mret (mkReply 500 false "Failed to update profile picture."))
        (λ _, mret (mkReply 500 false "Server error."))
  | _, _ => mret (mkReply 400 false "User ID and URL are required.")
  end.

(** The store after a password update for [userId] and the deletion of
    [token]. *)
Definition after_reset (token userId newHash : string) (st : Store) : Store :=
  set_tokens (filter (λ r, rt_token r ≠ token) (reset_tokens st))
    (set_accounts (set_hash userId newHash <$> accounts st) st).

(** No database failure is scheduled; the environment after one
    successful statement. *)
Definition reliable (e : Env) : Prop := ∀ b, b ∈ db_faults e → b = false.

Definition tick (e : Env) : Env := set_db_faults (tail (db_faults e)) e.

End Accounts.

(** Processing the inbound events of one connection one after the other:
    the socket and the world are threaded, the traces are concatenated.
    Each event is taken up only when the handler of the previous one has
    run to completion.  Socket.IO itself starts a handler as soon as its
    event arrives, so that two handlers may interleave at their awaits;
    [run_all] describes the runs in which every event arrives after the
    previous handler has finished, and the statements made with it are
    about those runs only. *)
Fixpoint run_all (es : list Server.Inbound) (s : Socket) (w : World)
  : Socket * World * list Action :=
  match es with
  | [] => (s, w, [])
  | e :: es =>
      match Server.handle e s w with
      | (Ok s1, w1, t1) =>
          match run_all es s1 w1 with (s2, w2, t2) => (s2, w2, t1 ++ t2) end
      | (Throw, w1, t1) => (s, w1, t1)
      end
  end.

(** ** Derived notions used in the statements *)

(** No storage failure is scheduled. *)
Definition reliable (w : World) : Prop := ∀ b, b ∈ faults w → b = false.

(** The world after a successful statement: one entry of the fault
    schedule is used up. *)
Definition tick (w : World) : World := set_faults (tail (faults w)) w.

(** Membership of the Like fact (postId, userId). *)
Definition hasLike (postId userId : string) (d : Db) : bool :=
  bool_decide (Exists (Db.like_of postId userId) (likes d)).

(** The Like table after one toggle of (postId, userId). *)
Definition toggled (postId userId : string) (d : Db) : Db :=
  if hasLike postId userId d
  then set_likes (filter (λ l, ¬ Db.like_of postId userId l) (likes d)) d
  else set_likes (likes d ++ [mkLike postId userId]) d.

(** The world after [n] successful statements. *)
Fixpoint ticks (n : nat) (w : World) : World :=
  match n with 0 => w | S n => ticks n (tick w) end.

Definition world_after (es : list Server.Inbound) (s : Socket) (w : World) : World :=
  (run_all es s w).1.2.

Definition socket_after (es : list Server.Inbound) (s : Socket) (w : World) : Socket :=
  (run_all es s w).1.1.

Definition trace_of (es : list Server.Inbound) (s : Socket) (w : World) : list Action :=
  (run_all es s w).2.

Definition like_event (postId userId : string) : Server.Inbound :=
  Server.LikePost (mkLikeData (Some postId) (Some userId)).

(** The world after one successful [likePost] of (postId, userId): three
    statements have run and the Like table is toggled. *)
Definition like_step (postId userId : string) (w : World) : World :=
  set_db (toggled postId userId (db w)) (tick (tick (tick w))).

(** The [likeUpdate] broadcast of toggle number [S k] in a run of toggles
    of (postId, userId) from world [w]: its count is the aggregate count of
    the store as it is after that toggle. *)
Definition like_broadcast (postId userId : string) (s : Socket) (w : World)
    (k : nat) : Action :=
  AEmit Broadcast "likeUpdate"
    (Server.likeUpdate postId
       (Db.countLikes postId
          (db (world_after (replicate (S k) (like_event postId userId)) s w)))).


(** The next [k] statements meet no scheduled storage failure. *)
Definition first_ok (k : nat) (w : World) : Prop :=
  ∀ b, b ∈ take k (faults w) → b = false.





(** The table satisfies its unique key. *)
Definition key_ok (k : OnlineKey) (rows : list OnlineUser) : Prop :=
  match k with
  | KeyUserId => NoDup (o_userId <$> rows)
  | KeySocketId => NoDup (o_socketId <$> rows)
  end.

(** The entries of a user in a list of online-user objects. *)
Definition entries_of (userId : string) (rows : list Obj) : list Obj :=
  filter (λ o, o !! "userId" = Some (VStr userId)) rows.



(** Concrete inputs for the examples. *)
Definition world0 : World := mkWorld empty_db KeyUserId [] 0 0.
Definition socket0 : Socket := mkSocket "s1" None.
Definition hi : PrivateMsg := mkPrivateMsg (Some "u1") (Some "u2") (Some "hi").

Definition alice : SessionUser := mkSessionUser "u1" "alice" None.
Definition alice_online : OnlineData := mkOnlineData (Some "u1") (Some "alice").

(** A store where alice is online on socket s1, and her identified socket. *)
Definition world1 : World :=
  mkWorld (set_online [mkOnline "u1" "alice" "s1"] empty_db) KeyUserId [] 0 0.
Definition socket1 : Socket := mkSocket "s1" (Some "u1").

(** The INSERT succeeds, the next statement fails. *)
Definition world_second_fails : World := mkWorld empty_db KeyUserId [false; true] 0 0.

(** Disconnect idempotence as the specification words it: a second run
    of the disconnect handler on the same socket removes nothing more and
    broadcasts nothing. *)
Definition second_disconnect_silent (s : Socket) (w : World) : Prop :=
  ∀ s1 w1 t1 s2 w2 t2,
    Server.disconnect s w = (Ok s1, w1, t1) →
    Server.disconnect s1 w1 = (Ok s2, w2, t2) →
    online_users (db w2) = online_users (db w1) ∧ emitted t2 = [].

(** A nullable column as a value. *)
Definition column (v : option string) : Value :=
  match v with Some s => VStr s | None => VNull end.

(** The comment broadcast as the specification words it: the author's
    name and image in the event are those of the user's row in [users] at
    the time of posting. *)
Definition comment_author_resolved (body : CommentBody) (w : World) : Prop :=
  ∀ t o,
    AEmit t "commentUpdate" (PObj o) ∈ (Server.postComment body w).2 →
    ∃ usr, usr ∈ users (db w)
           ∧ cb_user_id body = Some (u_user_id usr)
           ∧ o !! "username" = Some (VStr (u_username usr))
           ∧ o !! "profilePicUrl" = Some (column (u_profile_pic_url usr)).

(** A user whose picture has changed since the client cached it. *)
Definition world_new_pic : World :=
  mkWorld (mkDb [mkUser "u1" "alice" (Some "/new.png")] [] [] [] [] [])
    KeyUserId [] 0 0.
Definition stale_body : CommentBody :=
  mkCommentBody (Some "p1") (Some "u1") (Some "nice") (Some "alice")
    (Some "/old.png").

(** The post's author has a row in [users]: the posts that the JOIN of
    the feed query keeps. *)
Definition has_author (d : Db) (p : Post) : Prop :=
  p_user_id p ∈ u_user_id <$> users d.

#[global] Instance has_author_dec d p : Decision (has_author d p).
Proof. unfold has_author. apply _. Defined.

(** A feed of 21 posts by alice, post number [i] created at time [i]. *)
Definition world_21_posts : World :=
  mkWorld
    (mkDb [mkUser "u1" "alice" None]
       ((λ i, mkPost (pretty i) "u1" "alice" "hello" None i) <$> seq 0 21)
       [] [] [] [])
    KeyUserId [] 0 0.

(** An account store with alice, read at clock 4000 ms, and a stand-in
    for bcrypt for the examples. *)
Definition acct_alice : Accounts.Account :=
  Accounts.mkAccount "u1" "alice@example.org" "old-hash" "alice" None.
Definition env1 : Accounts.Env :=
  Accounts.mkEnv (Accounts.mkStore [acct_alice] []) [] [] 4000 0 0.
Definition env_token : Accounts.Env :=
  Accounts.mkEnv
    (Accounts.mkStore [acct_alice] [Accounts.mkResetToken "u1" "tok" 3604])
    [] [] 4500 0 0.
Definition plain_hash (salt : nat) (password : string) : string :=
  "h:" +:+ password.
Definition plain_compare (password h : string) : bool :=
  bool_decide (h = "h:" +:+ password).

(** * Theorems *)

Arguments query : simpl never.
Arguments select : simpl never.
Arguments update : simpl never.

Section Monad.

Lemma reliable_tick w : reliable w → reliable (tick w).
Proof.
  unfold reliable, tick. destruct w as [d k fs t n]; simpl.
  intros H b Hb. apply H. destruct fs; set_solver.
Qed.

Lemma reliable_set_db d w : reliable w → reliable (set_db d w).
Proof. done. Qed.

Lemma query_ok {A} q (run : Db → option (A * Db)) w a d :
  reliable w → run (db w) = Some (a, d) →
  query q run w = (Ok a, set_db d (tick w), [AQuery q true]).
Proof.
  intros Hr Hrun. unfold query, tick.
  destruct (faults w) as [|[] fs] eqn:Hf; rewrite ?Hrun; try done.
  exfalso. specialize (Hr true). rewrite Hf in Hr.
  discriminate Hr. left.
Qed.

Lemma select_ok {A} q (f : Db → A) w :
  reliable w → select q f w = (Ok (f (db w)), tick w, [AQuery q true]).
Proof. intros Hr. unfold select. by rewrite (query_ok _ _ _ (f (db w)) (db w)). Qed.

Lemma update_ok q (f : Db → Db) w :
  reliable w → update q f w = (Ok (), set_db (f (db w)) (tick w), [AQuery q true]).
Proof. intros Hr. unfold update. by rewrite (query_ok _ _ _ () (f (db w))). Qed.

End Monad.

Create HintDb world.
#[global] Hint Resolve reliable_tick reliable_set_db : world.

(** Run the next statement of a handler in a world without faults. *)
Ltac run_query :=
  first [ rewrite select_ok by eauto with world
        | rewrite update_ok by eauto with world ]; simpl.

Ltac unfold_m :=
  unfold try_catch, fire_and_forget, mbind, M_bind, param, mret, M_ret,
    emit, act, get_now, get_key, throw; simpl.

Section Likes.

Lemma head_filter_hasLike p u d :
  is_Some (head (filter (Db.like_of p u) (likes d))) ↔ hasLike p u d = true.
Proof.
  unfold hasLike. rewrite bool_decide_eq_true, Exists_exists.
  rewrite head_is_Some. split.
  - intros Hne. destruct (filter _ _) as [|l ls] eqn:Hf; [done|].
    assert (l ∈ filter (Db.like_of p u) (likes d)) as Hl by (rewrite Hf; left).
    apply list_elem_of_filter in Hl. exists l. tauto.
  - intros (l & Hin & Hl) Hnil.
    assert (l ∈ filter (Db.like_of p u) (likes d)) as Hl'
      by (apply list_elem_of_filter; done).
    rewrite Hnil in Hl'. by apply elem_of_nil in Hl'.
Qed.

Lemma hasLike_toggled p u d : hasLike p u (toggled p u d) = negb (hasLike p u d).
Proof.
  unfold toggled. destruct (hasLike p u d) eqn:Hd; unfold hasLike; simpl.
  - apply bool_decide_eq_false. rewrite Exists_exists.
    intros (l & Hin & Hl). apply list_elem_of_filter in Hin. tauto.
  - apply bool_decide_eq_true. rewrite Exists_exists.
    exists (mkLike p u). split; [set_solver|done].
Qed.

Lemma likePost_ok p u s w :
  reliable w →
  Server.likePost (mkLikeData (Some p) (Some u)) s w =
    (Ok s, set_db (toggled p u (db w)) (tick (tick (tick w))),
     [AQuery SelectLike true;
      AQuery (if hasLike p u (db w) then DeleteLike else InsertLike) true;
      AQuery CountLikes true;
      AEmit Broadcast "likeUpdate"
        (Server.likeUpdate p (Db.countLikes p (toggled p u (db w))))]).
Proof.
  intros Hr.
  unfold Server.likePost, Db.getLike, Db.getLikeCount, Db.removeLike,
    Db.addLike, toggled.
  unfold_m. run_query.
  pose proof (head_filter_hasLike p u (db w)) as Hh.
  destruct (head _) as [l|] eqn:Hhead.
  - assert (hasLike p u (db w) = true) as -> by (apply Hh; eauto).
    do 2 run_query. reflexivity.
  - assert (hasLike p u (db w) = false) as ->.
    { destruct (hasLike p u (db w)); [|done].
      destruct Hh as [_ Hh]. destruct Hh as [? ?]; done. }
    do 2 run_query. reflexivity.
Qed.

End Likes.

(** The scenario of the specification: a first like of a post without
    likes broadcasts the count 1, the second like by the same user 0. *)
Example like_twice :
  emitted (trace_of (replicate 2 (like_event "p1" "u2")) socket0 world0)
    = [AEmit Broadcast "likeUpdate" (Server.likeUpdate "p1" 1);
       AEmit Broadcast "likeUpdate" (Server.likeUpdate "p1" 0)].
Proof. reflexivity. Qed.

(** A storage failure in the middle of a toggle: the like is written, the
    COUNT fails, nothing is broadcast. *)
Example like_count_fails :
  let r := Server.likePost (mkLikeData (Some "p1") (Some "u2")) socket0
             (mkWorld empty_db KeyUserId [false; false; true] 0 0) in
  likes (db r.1.2) = [mkLike "p1" "u2"] ∧ emitted r.2 = [].
Proof. split; reflexivity. Qed.

Section LikeSequences.

Variables (p u : string).

Let e := like_event p u.

Let step := like_step p u.
Let bcast := like_broadcast p u.

Lemma reliable_like_step w : reliable w → reliable (step w).
Proof. unfold step, like_step. eauto with world. Qed.

Lemma run_all_like_cons es s w :
  reliable w →
  run_all (e :: es) s w =
    ((run_all es s (step w)).1,
     [AQuery SelectLike true;
      AQuery (if hasLike p u (db w) then DeleteLike else InsertLike) true;
      AQuery CountLikes true;
      AEmit Broadcast "likeUpdate"
        (Server.likeUpdate p (Db.countLikes p (db (step w))))]
     ++ (run_all es s (step w)).2).
Proof.
  intros Hr. cbn [run_all]. unfold e, like_event. cbn [Server.handle].
  rewrite likePost_ok by done.
  change (set_db _ _) with (step w).
  by destruct (run_all es s (step w)) as [[s2 w2] t2].
Qed.

Lemma world_after_like_cons es s w :
  reliable w → world_after (e :: es) s w = world_after es s (step w).
Proof. intros Hr. unfold world_after. by rewrite run_all_like_cons. Qed.

Lemma trace_of_like_cons es s w :
  reliable w →
  emitted (trace_of (e :: es) s w) =
    AEmit Broadcast "likeUpdate"
      (Server.likeUpdate p (Db.countLikes p (db (step w))))
    :: emitted (trace_of es s (step w)).
Proof.
  intros Hr. unfold trace_of, emitted. rewrite run_all_like_cons by done.
  cbn [snd]. by rewrite filter_app.
Qed.

Lemma likes_after n s w :
  reliable w →
  hasLike p u (db (world_after (replicate n e) s w))
    = xorb (hasLike p u (db w)) (Nat.odd n)
  ∧ emitted (trace_of (replicate n e) s w) = bcast s w <$> seq 0 n.
Proof.
  revert w. induction n as [|n IH]; intros w Hr.
  - split; [|done]. unfold world_after. simpl. by destruct (hasLike p u (db w)).
  - destruct (IH (step w) (reliable_like_step _ Hr)) as [IHl IHt].
    change (replicate (S n) e) with (e :: replicate n e).
    rewrite world_after_like_cons, trace_of_like_cons by done. split.
    + rewrite IHl. unfold step at 1, like_step. simpl.
      rewrite hasLike_toggled.
      rewrite Nat.odd_succ, <- Nat.negb_odd.
      by destruct (hasLike p u (db w)), (Nat.odd n).
    + rewrite IHt. cbn [seq]. rewrite fmap_cons, <- fmap_S_seq, <- list_fmap_compose.
      f_equal.
      * unfold bcast, like_broadcast.
        change (replicate 1 (like_event p u)) with (e :: []).
        by rewrite world_after_like_cons.
      * apply list_fmap_ext. intros _ k _.
        unfold bcast, like_broadcast, compose.
        change (replicate (S (S k)) (like_event p u))
          with (e :: replicate (S k) e).
        by rewrite world_after_like_cons.
Qed.

End LikeSequences.

Lemma reliable_world0 : reliable world0.
Proof. intros b Hb. by apply elem_of_nil in Hb. Qed.

Section PrivateMessage.


End PrivateMessage.



Section Delivery.

Lemma truthy_str_Some v :
  truthy v = true → ∃ x, v = Some x ∧ truthy_str v = Some x.
Proof. unfold truthy_str. intros H. rewrite H. destruct v; [eauto|done]. Qed.

Lemma truthy_str_false v : truthy v = false → truthy_str v = None.
Proof. unfold truthy_str. by intros ->. Qed.

Lemma elem_of_merge_sort {A} (R : relation A) `{∀ x y, Decision (R x y)}
    (x : A) (l : list A) :
  x ∈ merge_sort R l ↔ x ∈ l.
Proof. by rewrite merge_sort_Permutation. Qed.

Lemma resolveSocket_insert_message t a b m u d :
  Db.resolveSocket u (Db.insert_message t a b m d) = Db.resolveSocket u d.
Proof. done. Qed.


Lemma privateMessage_ok a b m s w :
  reliable w →
  truthy (Some a) = true → truthy (Some b) = true → truthy (Some m) = true →
  Server.privateMessage (mkPrivateMsg (Some a) (Some b) (Some m)) s w =
    (Ok s, set_db (Db.insert_message (now w) a b m (db w)) (tick (tick w)),
     [AQuery InsertMessage true; AQuery SelectSocketOfUser true]
     ++ (if truthy_str (Db.resolveSocket b (db w)) is Some sid
         then [AEmit (ToRoom sid) "newPrivateMessage"
                 (Server.fullMsg a b m (now w))]
         else [])
     ++ [AEmit ToSelf "newPrivateMessage" (Server.fullMsg a b m (now w))]).
Proof.
  intros Hr Ha Hb Hm. unfold Server.privateMessage. simpl.
  apply truthy_str_Some in Ha as (? & [= <-] & ->).
  apply truthy_str_Some in Hb as (? & [= <-] & ->).
  apply truthy_str_Some in Hm as (? & [= <-] & ->).
  unfold Db.savePrivateMessage, Db.getRecipientSocketId. unfold_m.
  do 2 run_query. rewrite resolveSocket_insert_message.
  by destruct (truthy_str (Db.resolveSocket b (db w))).
Qed.

End Delivery.

Section OfflineRecipient.

Lemma first_ok_reliable k w : reliable w → first_ok k w.
Proof.
  intros Hr b Hb. apply Hr.
  eapply elem_of_submseteq; [done|]. apply sublist_submseteq, sublist_take.
Qed.


End OfflineRecipient.



(** The run behind the counterexample: the INSERT succeeds and the lookup
    of the recipient's socket fails; the message is stored and the trace
    ends with the failed lookup. *)
Example privateMessage_lookup_fails :
  Server.privateMessage hi socket0 world_second_fails
    = (Ok socket0,
       mkWorld (set_messages [mkMessage 1 "u1" "u2" "hi" 0] empty_db)
         KeyUserId [] 0 0,
       [AQuery InsertMessage true; AQuery SelectSocketOfUser false]).
Proof. reflexivity. Qed.


Section History.

#[global] Instance older_total : Total Db.older.
Proof. intros m1 m2. unfold Db.older. lia. Qed.

#[global] Instance older_trans : Transitive Db.older.
Proof. intros m1 m2 m3. unfold Db.older. lia. Qed.




End History.

(** Three stored messages, two of the conversation of u1 and u2, stored
    out of order of their creation times. *)
Example chat_history_u1_u2 :
  let d := set_messages
             [mkMessage 1 "u2" "u1" "later" 7;
              mkMessage 2 "u1" "u3" "other" 5;
              mkMessage 3 "u1" "u2" "first" 4] empty_db in
  Db.chatHistory "u1" "u2" d
    = [Db.mkHistoryRow 3 "u1" "first" 4; Db.mkHistoryRow 1 "u2" "later" 7]
  ∧ Db.chatHistory "u2" "u1" d = Db.chatHistory "u1" "u2" d.
Proof. split; reflexivity. Qed.


Section Presence.

Variables (u n c : string).


Lemma existsb_dup_userId (rows : list OnlineUser) :
  existsb (Db.dup_key KeyUserId u c) rows = true ↔ u ∈ o_userId <$> rows.
Proof.
  induction rows as [|r rows IH]; simpl.
  - split; [done|]. by intros ?%elem_of_nil.
  - rewrite orb_true_iff, IH, bool_decide_eq_true, elem_of_cons.
    split; intros [?|?]; auto.
Qed.


Lemma filter_user_absent (rows : list OnlineUser) :
  u ∉ o_userId <$> rows → filter (λ r, o_userId r = u) rows = [].
Proof.
  induction rows as [|r rows IH]; [done|]. csimpl.
  rewrite not_elem_of_cons. intros [Hne Hnin].
  rewrite filter_cons_False by done. auto.
Qed.



(** Delete by userId, then insert. *)
Lemma register_userId (rows : list OnlineUser) :
  DbReset.insert_online KeyUserId u n c (filter (λ r, o_userId r ≠ u) rows)
    = Some (filter (λ r, o_userId r ≠ u) rows ++ [mkOnline u n c]).
Proof.
  unfold DbReset.insert_online.
  destruct (existsb _ _) eqn:Hex; [|done].
  apply existsb_dup_userId, list_elem_of_fmap in Hex as (r & -> & Hr).
  apply list_elem_of_filter in Hr. tauto.
Qed.

Lemma register_userId_rows (rows : list OnlineUser) :
  NoDup (o_userId <$> rows) →
  NoDup (o_userId <$> (filter (λ r, o_userId r ≠ u) rows ++ [mkOnline u n c]))
  ∧ filter (λ r, o_userId r = u)
      (filter (λ r, o_userId r ≠ u) rows ++ [mkOnline u n c])
    = [mkOnline u n c].
Proof.
  intros Hnd.
  assert (u ∉ o_userId <$> filter (λ r, o_userId r ≠ u) rows) as Hnin.
  { intros (r & -> & Hr)%list_elem_of_fmap.
    apply list_elem_of_filter in Hr. tauto. }
  split.
  - rewrite fmap_app. apply NoDup_app. split_and!.
    + clear Hnin. induction rows as [|r rows IH]; [done|]. csimpl in *.
      apply NoDup_cons in Hnd as [Hr Hnd].
      destruct (decide (o_userId r ≠ u)).
      * rewrite filter_cons_True by done. csimpl. apply NoDup_cons.
        split; [|auto]. intros (r' & Heq & Hr')%list_elem_of_fmap.
        apply list_elem_of_filter in Hr' as [_ Hr']. apply Hr.
        apply list_elem_of_fmap. eauto.
      * rewrite filter_cons_False by done. auto.
    + intros x Hx ->%list_elem_of_singleton. done.
    + apply NoDup_singleton.
  - rewrite filter_app, filter_user_absent by done.
    by rewrite filter_cons_True.
Qed.

End Presence.

Section MarkOnline.


Lemma online_row_userId r : Db.online_row r !! "userId" = Some (VStr (o_userId r)).
Proof. unfold Db.online_row. by rewrite lookup_insert_eq. Qed.


End MarkOnline.

Section ReplacePolicy.

Variables (u n : string).









End ReplacePolicy.





(** On a table keyed by socketId the same two calls of [setOnlineStatus]
    leave two rows for the user, and the lookup still answers the first
    socket: the replace policy of [setOnlineStatus] rests on the userId
    key. *)
Example setOnlineStatus_socket_key_keeps_both :
  let w := mkWorld empty_db KeySocketId [] 0 0 in
  let w1 := (Db.setOnlineStatus "u1" "alice" "s1" w).1.2 in
  let w2 := (Db.setOnlineStatus "u1" "alice" "s2" w1).1.2 in
  online_users (db w2) = [mkOnline "u1" "alice" "s1"; mkOnline "u1" "alice" "s2"]
  ∧ Db.resolveSocket "u1" (db w2) = Some "s1".
Proof. split; reflexivity. Qed.

Section OnlineUsersPayload.

(** The payload objects of [broadcastOnlineUsers] have the two fields
    userId and username and nothing else, whatever the rows are. *)
Lemma userPayload_fields (u : Obj) :
  dom (Server.userPayload u) = ({[ "userId"; "username" ]} : gset string)
  ∧ Server.userPayload u !! "socketId" = None.
Proof.
  unfold Server.userPayload. split.
  - by rewrite dom_insert_L, dom_singleton_L.
  - by rewrite lookup_insert_ne, lookup_singleton_ne.
Qed.

Lemma broadcastOnlineUsers_hides_socketId w t e l o :
  AEmit t e (PList l) ∈ (Server.broadcastOnlineUsers w).2 →
  o ∈ l → o !! "socketId" = None.
Proof.
  unfold Server.broadcastOnlineUsers, Db.getOnlineUsers, select, query.
  unfold_m. destruct (faults w) as [|[] fs]; simpl;
    intros Hin; repeat (apply elem_of_cons in Hin as [Hin|Hin]; [|]);
    try (by apply elem_of_nil in Hin); try done;
    injection Hin as -> -> ->;
    intros (u & -> & _)%list_elem_of_fmap; apply userPayload_fields.
Qed.

End OnlineUsersPayload.

(** In the session-based revision the connection handler sends the rows
    of [getOnlineUsers] unchanged, and each of them has its socketId. *)
Lemma session_connection_payload user s w :
  reliable w →
  let r := SessionServer.connection (Some user) s w in
  r.2 = [AQuery UpsertOnline true; AQuery SelectOnline true;
         AEmit Broadcast "onlineUsers"
           (PList (Db.online_row <$> online_users (db r.1.2)))]
  ∧ ∀ row, Db.online_row row !! "socketId" = Some (VStr (o_socketId row)).
Proof.
  intros Hr. unfold SessionServer.connection, Db.setOnlineStatus,
    Db.getOnlineUsers. unfold_m. do 2 run_query.
  split; [reflexivity|]. intros row. unfold Db.online_row.
  do 2 rewrite lookup_insert_ne by done. by rewrite lookup_singleton_eq.
Qed.

(** C6 (the session-based revision against the claim): when an
    authenticated user connects, the handler broadcasts the rows of
    [db.getOnlineUsers()] as they are, and each row carries the socketId. *)
Theorem session_connection_leaks_socketId :
  emitted (SessionServer.connection (Some alice) socket0 world0).2
    = [AEmit Broadcast "onlineUsers"
         (PList [Db.online_row (mkOnline "u1" "alice" "s1")])]
  ∧ Db.online_row (mkOnline "u1" "alice" "s1") !! "socketId" = Some (VStr "s1").
Proof. split; reflexivity. Qed.

Section Failures.

Ltac no_failed_query Hin :=
  repeat (apply elem_of_cons in Hin as [Hin|Hin]; [discriminate Hin|]);
  by apply elem_of_nil in Hin.

(** likePost: every statement is awaited inside the [try]; whichever
    statement fails, the handler returns normally, nothing is
    broadcast, and socket and presence table are as before. *)
Lemma likePost_failure_contained data s w :
  ∃ w' tr,
    Server.likePost data s w = (Ok s, w', tr)
    ∧ online_users (db w') = online_users (db w)
    ∧ (∀ q, AQuery q false ∈ tr → emitted tr = []).
Proof.
  unfold Server.likePost, Db.getLike, Db.removeLike, Db.addLike,
    Db.getLikeCount, select, update, query.
  destruct data as [[p|] [u|]]; unfold_m; try by eexists _, _.
  destruct (faults w) as [|[] [|[] [|[] fs]]]; simpl;
    try (match goal with |- context [head ?l] => destruct (head l) end; simpl);
    (eexists _, _; split; [reflexivity|]; split; [done|]);
    intros q Hin; try reflexivity; no_failed_query Hin.
Qed.

(** privateMessage: the same. *)
Lemma privateMessage_failure_contained msg s w :
  ∃ w' tr,
    Server.privateMessage msg s w = (Ok s, w', tr)
    ∧ online_users (db w') = online_users (db w)
    ∧ (∀ q, AQuery q false ∈ tr → emitted tr = []).
Proof.
  unfold Server.privateMessage.
  destruct (truthy_str (pm_senderId msg)) as [a|]; [|by eexists _, _].
  destruct (truthy_str (pm_recipientId msg)) as [b|]; [|by eexists _, _].
  destruct (truthy_str (pm_message msg)) as [m|]; [|by eexists _, _].
  unfold Db.savePrivateMessage, Db.getRecipientSocketId, select, update, query.
  unfold_m.
  destruct (faults w) as [|[] [|[] fs]]; simpl;
    try (match goal with
         | |- context [truthy_str ?v] => destruct (truthy_str v)
         end; simpl);
    (eexists _, _; split; [reflexivity|]; split; [done|]);
    intros q Hin; try reflexivity; no_failed_query Hin.
Qed.

(** Every handler awaits its first statement inside the [try]: when
    that statement fails, the error is caught, nothing is emitted, the
    socket and the store are as before, and nothing is left unhandled. *)
Lemma first_statement_fails e s w fs :
  faults w = true :: fs →
  ∃ w' tr,
    Server.handle e s w = (Ok s, w', tr)
    ∧ db w' = db w ∧ emitted tr = [] ∧ AUnhandledRejection ∉ tr.
Proof.
  intros Hf. destruct e as [data|v| |msg|[[?|] [?|]]]; simpl;
    unfold Server.userOnline, Server.userOffline, Server.disconnect,
      Server.privateMessage, Server.likePost,
      Db.setOnlineStatus, Db.removeOnlineStatusByUserId,
      Db.removeOnlineStatusBySocketId, Db.savePrivateMessage, Db.getLike,
      select, update, query;
    repeat match goal with
           | |- context [truthy_str ?v] => destruct (truthy_str v)
           | |- context [truthy ?v] => destruct (truthy v)
           end;
    unfold_m; rewrite ?Hf; simpl;
    (eexists _, _; split; [reflexivity|]; split_and!; try done);
    intros Hin; repeat (apply elem_of_cons in Hin as [Hin|Hin]; [discriminate Hin|]);
    by apply elem_of_nil in Hin.
Qed.

End Failures.

(** C7 (the code against the claim): userOnline with a valid payload, the
    INSERT succeeds and the SELECT inside [broadcastOnlineUsers] fails.
    The helper is called without [await], so its rejection is not caught
    by the handler's [try]/[catch]: it is an unhandled promise rejection,
    and by then the socket is bound to the user and the presence row is
    written. *)
Theorem userOnline_broadcast_failure_unhandled :
  ∃ w',
    Server.userOnline alice_online socket0 world_second_fails
      = (Ok (mkSocket "s1" (Some "u1")), w',
         [AQuery UpsertOnline true; AQuery SelectOnline false; AUnhandledRejection])
    ∧ online_users (db w') = [mkOnline "u1" "alice" "s1"].
Proof. eexists. split; reflexivity. Qed.

Section Disconnect.

Lemma filter_twice {A} (P : A → Prop) `{∀ x, Decision (P x)} (l : list A) :
  filter P (filter P l) = filter P l.
Proof. rewrite list_filter_filter. apply list_filter_iff. tauto. Qed.

Lemma disconnect_ok s w :
  reliable w →
  Server.disconnect s w =
    if truthy (sock_userId s)
    then
      let d := set_online
                 (filter (λ r, o_socketId r ≠ sock_id s) (online_users (db w)))
                 (db w) in
      (Ok s, set_db d (tick (tick w)),
       [AQuery DeleteOnlineBySocket true; AQuery SelectOnline true;
        AEmit Broadcast "onlineUsers"
          (PList (Server.userPayload <$> (Db.online_row <$> online_users d)))])
    else (Ok s, w, []).
Proof.
  intros Hr. unfold Server.disconnect, Server.broadcastOnlineUsers,
    Db.removeOnlineStatusBySocketId, Db.getOnlineUsers.
  destruct (truthy (sock_userId s)); [|done].
  unfold_m. by do 2 run_query.
Qed.

Lemma userPayload_row (r : OnlineUser) :
  Server.userPayload (Db.online_row r) !! "userId" = Some (VStr (o_userId r))
  ∧ Server.userPayload (Db.online_row r) !! "username"
      = Some (VStr (o_username r))
  ∧ Server.userPayload (Db.online_row r) !! "socketId" = None.
Proof.
  unfold Server.userPayload, Db.online_row, field. split_and!.
  - by rewrite lookup_insert_eq, lookup_insert_eq.
  - rewrite lookup_insert_ne, lookup_singleton_eq by done.
    by rewrite lookup_insert_ne, lookup_insert_eq.
  - by rewrite lookup_insert_ne, lookup_singleton_ne.
Qed.

Lemma userPayload_rows (rows : list OnlineUser) :
  Forall2 (λ o r, o !! "userId" = Some (VStr (o_userId r))
                  ∧ o !! "username" = Some (VStr (o_username r))
                  ∧ o !! "socketId" = None)
    (Server.userPayload <$> (Db.online_row <$> rows)) rows.
Proof.
  rewrite <- list_fmap_compose. apply Forall2_fmap_l, Forall_Forall2_diag.
  apply Forall_forall. intros r _. apply userPayload_row.
Qed.

End Disconnect.

(** C8, as stated, fails: with alice online on her identified socket, the
    second run of the disconnect handler broadcasts the online list
    again. *)
Lemma second_disconnect_broadcasts_again :
  ¬ second_disconnect_silent socket1 world1.
Proof.
  intros H.
  destruct (H _ _ _ _ _ _ eq_refl eq_refl) as [_ Hsilent].
  vm_compute in Hsilent. discriminate Hsilent.
Qed.

(** C8, amended: when no storage call fails, running the disconnect
    handler twice on a socket raises no error (both runs return, no
    statement fails and no rejection is left unhandled) and leaves the
    socket as it is; for an identified socket the first run deletes the
    rows of this socket and the second deletes nothing (the store after
    it is the store before it), and each of the two runs broadcasts the
    online list, the same list both times: one object per remaining row,
    with its userId and username and without socketId; for a socket that
    is not identified neither run does anything. *)
Theorem disconnect_twice (s : Socket) (w : World) :
  reliable w →
  ∃ w1 t1 w2 t2,
    Server.disconnect s w = (Ok s, w1, t1)
    ∧ Server.disconnect s w1 = (Ok s, w2, t2)
    ∧ db w2 = db w1
    ∧ online_users (db w1) =
        (if truthy (sock_userId s)
         then filter (λ r, o_socketId r ≠ sock_id s) (online_users (db w))
         else online_users (db w))
    ∧ emitted t1 =
        (if truthy (sock_userId s)
         then [AEmit Broadcast "onlineUsers"
                 (PList (Server.userPayload <$>
                           (Db.online_row <$> online_users (db w1))))]
         else [])
    ∧ emitted t2 = emitted t1
    ∧ (AUnhandledRejection ∉ t1 ++ t2)
    ∧ (∀ q, AQuery q false ∉ t1 ++ t2)
    ∧ (truthy (sock_userId s) = true →
       ∃ l, emitted t1 = [AEmit Broadcast "onlineUsers" (PList l)]
            ∧ Forall2 (λ o r, o !! "userId" = Some (VStr (o_userId r))
                              ∧ o !! "username" = Some (VStr (o_username r))
                              ∧ o !! "socketId" = None)
                l (online_users (db w1))).
Proof.
  intros Hr. pose proof (disconnect_ok s w Hr) as H1.
  destruct (truthy (sock_userId s)) eqn:Hid.
  - eexists _, _, _, _. split; [exact H1|]. split.
    { rewrite disconnect_ok by eauto with world. rewrite Hid. reflexivity. }
    simpl. rewrite filter_twice. split_and!.
    + by destruct (db w).
    + done.
    + done.
    + done.
    + intros Hin. repeat (apply elem_of_cons in Hin as [?|Hin]; [done|]).
      by apply elem_of_nil in Hin.
    + intros q Hin. repeat (apply elem_of_cons in Hin as [?|Hin]; [done|]).
      by apply elem_of_nil in Hin.
    + intros _. eexists. split; [done|]. apply userPayload_rows.
  - eexists _, _, _, _. split; [exact H1|]. split.
    { rewrite disconnect_ok by done. rewrite Hid. reflexivity. }
    simpl. split_and!; try done.
    + by intros ?%elem_of_nil.
    + by intros q ?%elem_of_nil.
Qed.

Lemma disconnect_twice_witness :
  ∃ w1 t1 w2 t2,
    Server.disconnect socket1 world1 = (Ok socket1, w1, t1)
    ∧ Server.disconnect socket1 w1 = (Ok socket1, w2, t2)
    ∧ db w2 = db w1
    ∧ online_users (db w1) =
        (if truthy (sock_userId socket1)
         then filter (λ r, o_socketId r ≠ sock_id socket1)
                (online_users (db world1))
         else online_users (db world1))
    ∧ emitted t1 =
        (if truthy (sock_userId socket1)
         then [AEmit Broadcast "onlineUsers"
                 (PList (Server.userPayload <$>
                           (Db.online_row <$> online_users (db w1))))]
         else [])
    ∧ emitted t2 = emitted t1
    ∧ (AUnhandledRejection ∉ t1 ++ t2)
    ∧ (∀ q, AQuery q false ∉ t1 ++ t2)
    ∧ (truthy (sock_userId socket1) = true →
       ∃ l, emitted t1 = [AEmit Broadcast "onlineUsers" (PList l)]
            ∧ Forall2 (λ o r, o !! "userId" = Some (VStr (o_userId r))
                              ∧ o !! "username" = Some (VStr (o_username r))
                              ∧ o !! "socketId" = None)
                l (online_users (db w1))).
Proof.
  apply (disconnect_twice socket1 world1).
  intros b Hb. by apply elem_of_nil in Hb.
Defined.

Section Comments.

Lemma postComment_ok body p u c w :
  reliable w →
  truthy_str (cb_post_id body) = Some p →
  truthy_str (cb_user_id body) = Some u →
  truthy_str (cb_content body) = Some c →
  Server.postComment body w =
    (Ok (),
     mkWorld
       (set_comments
          (comments (db w) ++ [mkComment (uuid_of (uuids w)) p u c (now w)])
          (db w))
       (key w) (tail (faults w)) (now w) (S (uuids w)),
     [AQuery InsertComment true;
      AEmit Broadcast "commentUpdate"
        (PObj (Server.newComment (uuid_of (uuids w)) p u c body (now w)));
      ARespond 200 true]).
Proof.
  intros Hr Hp Hu Hc. unfold Server.postComment. rewrite Hp, Hu, Hc.
  unfold Db.createComment, uuidv4. unfold_m.
  rewrite update_ok by done. reflexivity.
Qed.

Lemma newComment_author commentId p u c body t :
  Server.newComment commentId p u c body t !! "username"
    = Some (opt_val (cb_username body))
  ∧ Server.newComment commentId p u c body t !! "profilePicUrl"
    = Some (opt_val (cb_profilePicUrl body)).
Proof.
  unfold Server.newComment. split.
  - do 3 rewrite lookup_insert_ne by done. by rewrite lookup_insert_eq.
  - do 5 rewrite lookup_insert_ne by done. by rewrite lookup_insert_eq.
Qed.

(** The join of [getCommentsByPostId]: each returned row pairs a comment
    of the post with a row of [users] for its author. *)
Lemma commentsByPostId_joined postId d r :
  r ∈ Db.commentsByPostId postId d ↔
  ∃ cm usr, cm ∈ comments d ∧ c_post_id cm = postId
            ∧ usr ∈ users d ∧ u_user_id usr = c_user_id cm
            ∧ r = Db.comment_row cm usr.
Proof.
  unfold Db.commentsByPostId. rewrite elem_of_merge_sort, list_elem_of_bind.
  split.
  - intros (cm & Hr & Hcm). apply list_elem_of_bind in Hr as (usr & Hr & Husr).
    apply list_elem_of_singleton in Hr.
    apply list_elem_of_filter in Hcm as [? ?].
    apply list_elem_of_filter in Husr as [? ?]. by exists cm, usr.
  - intros (cm & usr & ? & ? & ? & ? & ->). exists cm. split.
    + apply list_elem_of_bind. exists usr. split; [by left|].
      by apply list_elem_of_filter.
    + by apply list_elem_of_filter.
Qed.

End Comments.

(** C9, as stated, fails: alice's row in [users] has the new picture, the
    request body still carries the old one, and the broadcast comment has
    the picture of the body. *)
Lemma comment_broadcast_carries_request_picture :
  ¬ comment_author_resolved stale_body world_new_pic.
Proof.
  intros H.
  destruct (H Broadcast (Server.newComment "uuid-0" "p1" "u1" "nice" stale_body 0))
    as (usr & Husr & _ & _ & Hpic).
  - apply (list_elem_of_lookup_2 _ 1). reflexivity.
  - apply list_elem_of_singleton in Husr as ->. vm_compute in Hpic.
    discriminate Hpic.
Qed.

(** C9, amended: when a valid comment is saved (no storage failure), the
    one broadcast is a commentUpdate whose username and profilePicUrl are
    the values of the request body, whatever the [users] table holds; the
    join against [users] is what the comment listing does: the rows of
    [getCommentsByPostId] for a post are exactly the pairs of a comment of
    that post and a row of [users] with the comment's user id, each row
    carrying the id, post, author id, text and creation time of its
    comment, and the name and picture of that row of [users]. *)
Theorem comment_broadcast_from_request (body : CommentBody) (p u c : string)
    (w : World) :
  reliable w →
  truthy_str (cb_post_id body) = Some p →
  truthy_str (cb_user_id body) = Some u →
  truthy_str (cb_content body) = Some c →
  (∃ o, emitted (Server.postComment body w).2
          = [AEmit Broadcast "commentUpdate" (PObj o)]
        ∧ o !! "user_id" = Some (VStr u)
        ∧ o !! "username" = Some (opt_val (cb_username body))
        ∧ o !! "profilePicUrl" = Some (opt_val (cb_profilePicUrl body)))
  ∧ ∀ postId d r,
      r ∈ Db.commentsByPostId postId d ↔
      ∃ cm usr, cm ∈ comments d ∧ c_post_id cm = postId
                ∧ usr ∈ users d ∧ u_user_id usr = c_user_id cm
                ∧ r = Db.mkCommentRow (c_id cm) postId (c_user_id cm)
                        (c_content cm) (c_created_at cm)
                        (u_username usr) (u_profile_pic_url usr).
Proof.
  intros Hr Hp Hu Hc. split.
  - rewrite (postComment_ok body p u c w) by done.
    eexists. split; [reflexivity|].
    split; [|apply newComment_author].
    unfold Server.newComment.
    do 2 rewrite lookup_insert_ne by done. by rewrite lookup_insert_eq.
  - intros postId d r. rewrite commentsByPostId_joined.
    split; intros (cm & usr & ? & <- & ? & ? & ->); by exists cm, usr.
Qed.

Lemma comment_broadcast_from_request_witness :
  ∃ o, emitted (Server.postComment stale_body world_new_pic).2
         = [AEmit Broadcast "commentUpdate" (PObj o)]
       ∧ o !! "user_id" = Some (VStr "u1")
       ∧ o !! "username" = Some (opt_val (cb_username stale_body))
       ∧ o !! "profilePicUrl" = Some (opt_val (cb_profilePicUrl stale_body)).
Proof.
  apply (comment_broadcast_from_request stale_body "p1" "u1" "nice" world_new_pic);
    [intros b Hb; by apply elem_of_nil in Hb | reflexivity..].
Defined.

Section Feed.

#[global] Instance newer_total : Total Db.newer.
Proof. intros r1 r2. unfold Db.newer. lia. Qed.

#[global] Instance newer_trans : Transitive Db.newer.
Proof. intros r1 r2 r3. unfold Db.newer. lia. Qed.

(** [ORDER BY ... DESC LIMIT k] keeps a sorted prefix; what it drops is
    no newer than anything it keeps. *)
Lemma limit_newest k (rows : list Db.PostRow) :
  let sorted := merge_sort Db.newer rows in
  length (take k sorted) = min k (length rows)
  ∧ StronglySorted Db.newer (take k sorted)
  ∧ rows ≡ₚ take k sorted ++ drop k sorted
  ∧ ∀ r r', r ∈ take k sorted → r' ∈ drop k sorted → Db.newer r r'.
Proof.
  intros sorted.
  pose proof (StronglySorted_merge_sort Db.newer rows) as Hs.
  fold sorted in Hs. rewrite <- (take_drop k sorted) in Hs.
  split_and!.
  - rewrite length_take. unfold sorted. by rewrite merge_sort_Permutation.
  - by apply StronglySorted_app_1_l in Hs.
  - rewrite take_drop. unfold sorted. by rewrite merge_sort_Permutation.
  - intros r r'. by apply StronglySorted_app_1_elem_of.
Qed.

Lemma author_Some d pst :
  has_author d pst → ∃ usr, Db.author pst d = Some usr.
Proof.
  unfold has_author, Db.author. intros (usr & Heq & Hin)%list_elem_of_fmap.
  assert (usr ∈ filter (λ u, u_user_id u = p_user_id pst) (users d)) as Hf
    by (by apply list_elem_of_filter).
  destruct (filter _ _) as [|usr' us]; [by apply elem_of_nil in Hf|].
  by exists usr'.
Qed.

Lemma author_spec d pst usr :
  Db.author pst d = Some usr →
  usr ∈ users d ∧ u_user_id usr = p_user_id pst ∧ has_author d pst.
Proof.
  unfold Db.author, has_author. intros Hhead.
  destruct (filter _ (users d)) as [|usr' us] eqn:Hf; [done|].
  injection Hhead as ->.
  assert (usr ∈ filter (λ u, u_user_id u = p_user_id pst) (users d)) as Hu
    by (rewrite Hf; left).
  apply list_elem_of_filter in Hu as [Heq Hin].
  split_and!; [done..|]. apply list_elem_of_fmap. eauto.
Qed.

(** The rows of the join are as many as the posts with an author. *)
Lemma joined_length {A} (row : Post → User → A) d (l : list Post) :
  length (omap (λ pst, usr ← Db.author pst d; Some (row pst usr)) l)
    = length (filter (has_author d) l).
Proof.
  induction l as [|pst l IH]; [done|]. csimpl.
  destruct (Db.author pst d) as [usr|] eqn:Ha; simpl.
  - apply author_spec in Ha as (_ & _ & Ha).
    rewrite filter_cons_True by done. simpl. by rewrite IH.
  - rewrite filter_cons_False; [done|].
    intros (usr & Husr)%author_Some. congruence.
Qed.

End Feed.

(** C10: [getAllPosts] of db.js (ORDER BY created_at DESC LIMIT 20)
    returns min(20, number of posts whose author has a user row) rows,
    ordered by creation time, newest first.  Every returned row is the
    row of a post of the table: it has the id, author, content, media and
    creation time of that post, the name and picture of the author's row
    in [users], and the number of Like rows of the post.  Every post with
    an author is either among the returned rows or was created no later
    than each returned row.  The revision without LIMIT returns one row
    for every post with an author, newest first, with the username stored
    in the post.  With 21 posts created at times 0 to 20 the first returns
    the posts 20 down to 1, the oldest post is not among them, and the
    second returns all 21. *)
Theorem feed_capped_at_20_newest (d : Db) :
  (length (Db.allPosts d) = min 20 (length (filter (has_author d) (posts d)))
   ∧ StronglySorted (λ r r', Db.pr_created_at r' ≤ Db.pr_created_at r)
       (Db.allPosts d)
   ∧ (∀ r, r ∈ Db.allPosts d →
        ∃ pst usr, pst ∈ posts d ∧ usr ∈ users d
          ∧ u_user_id usr = p_user_id pst
          ∧ r = Db.mkPostRow (p_id pst) (p_user_id pst) (p_content pst)
                  (p_media_url pst) (p_created_at pst) (u_username usr)
                  (u_profile_pic_url usr)
                  (length (filter (λ l, l_post_id l = p_id pst) (likes d))))
   ∧ (∀ pst, pst ∈ posts d → has_author d pst →
        (∃ r, r ∈ Db.allPosts d ∧ Db.pr_id r = p_id pst
              ∧ Db.pr_created_at r = p_created_at pst
              ∧ Db.pr_content r = p_content pst)
        ∨ (∀ r, r ∈ Db.allPosts d → p_created_at pst ≤ Db.pr_created_at r))
   ∧ ∃ rest, omap (Db.post_row d) (posts d) ≡ₚ Db.allPosts d ++ rest
             ∧ ∀ r r', r ∈ Db.allPosts d → r' ∈ rest →
                       Db.pr_created_at r' ≤ Db.pr_created_at r)
  ∧ (length (DbReset.allPosts d) = length (filter (has_author d) (posts d))
     ∧ StronglySorted (λ r r', Db.pr_created_at r' ≤ Db.pr_created_at r)
         (DbReset.allPosts d)
     ∧ (∀ r, r ∈ DbReset.allPosts d →
          ∃ pst usr, pst ∈ posts d ∧ usr ∈ users d
            ∧ u_user_id usr = p_user_id pst
            ∧ r = Db.mkPostRow (p_id pst) (p_user_id pst) (p_content pst)
                    (p_media_url pst) (p_created_at pst) (p_username pst)
                    (u_profile_pic_url usr)
                    (length (filter (λ l, l_post_id l = p_id pst) (likes d))))
     ∧ (∀ pst, pst ∈ posts d → has_author d pst →
          ∃ r, r ∈ DbReset.allPosts d ∧ Db.pr_id r = p_id pst
               ∧ Db.pr_created_at r = p_created_at pst
               ∧ Db.pr_content r = p_content pst)
     ∧ DbReset.allPosts d ≡ₚ omap (DbReset.post_row d) (posts d))
  ∧ (Db.pr_id <$> Db.allPosts (db world_21_posts)
       = ["20"; "19"; "18"; "17"; "16"; "15"; "14"; "13"; "12"; "11";
          "10"; "9"; "8"; "7"; "6"; "5"; "4"; "3"; "2"; "1"]
     ∧ Db.pr_created_at <$> Db.allPosts (db world_21_posts)
       = [20; 19; 18; 17; 16; 15; 14; 13; 12; 11; 10; 9; 8; 7; 6; 5; 4; 3; 2; 1]
     ∧ length (posts (db world_21_posts)) = 21
     ∧ Forall (λ r, Db.pr_id r ≠ "0") (Db.allPosts (db world_21_posts))
     ∧ Db.pr_id <$> DbReset.allPosts (db world_21_posts)
       = ["20"; "19"; "18"; "17"; "16"; "15"; "14"; "13"; "12"; "11";
          "10"; "9"; "8"; "7"; "6"; "5"; "4"; "3"; "2"; "1"; "0"]).
Proof.
  destruct (limit_newest 20 (omap (Db.post_row d) (posts d)))
    as (Hlen & Hsorted & Hperm & Hnewer).
  assert (∀ pst r, Db.post_row d pst = Some r →
            ∃ usr, usr ∈ users d ∧ u_user_id usr = p_user_id pst
              ∧ r = Db.mkPostRow (p_id pst) (p_user_id pst) (p_content pst)
                      (p_media_url pst) (p_created_at pst) (u_username usr)
                      (u_profile_pic_url usr)
                      (length (filter (λ l, l_post_id l = p_id pst) (likes d))))
    as Hrow.
  { intros pst r Hr. unfold Db.post_row in Hr.
    destruct (Db.author pst d) as [usr|] eqn:Ha; [|done].
    apply author_spec in Ha as (? & ? & _).
    simpl in Hr. injection Hr as <-. by exists usr. }
  assert (∀ pst r, DbReset.post_row d pst = Some r →
            ∃ usr, usr ∈ users d ∧ u_user_id usr = p_user_id pst
              ∧ r = Db.mkPostRow (p_id pst) (p_user_id pst) (p_content pst)
                      (p_media_url pst) (p_created_at pst) (p_username pst)
                      (u_profile_pic_url usr)
                      (length (filter (λ l, l_post_id l = p_id pst) (likes d))))
    as Hrow'.
  { intros pst r Hr. unfold DbReset.post_row in Hr.
    destruct (Db.author pst d) as [usr|] eqn:Ha; [|done].
    apply author_spec in Ha as (? & ? & _).
    simpl in Hr. injection Hr as <-. by exists usr. }
  split_and!.
  - fold (Db.allPosts d) in Hlen. rewrite Hlen. f_equal.
    apply (joined_length _ d (posts d)).
  - exact Hsorted.
  - intros r Hin. assert (r ∈ omap (Db.post_row d) (posts d)) as Hj.
    { rewrite Hperm. apply elem_of_app. by left. }
    apply list_elem_of_omap in Hj as (pst & Hpst & Hr).
    destruct (Hrow pst r Hr) as (usr & ? & ? & ->). by exists pst, usr.
  - intros pst Hpst (usr & Ha)%author_Some.
    assert (is_Some (Db.post_row d pst)) as [r Hr]
      by (unfold Db.post_row; rewrite Ha; by eexists).
    assert (r ∈ omap (Db.post_row d) (posts d)) as Hj
      by (apply list_elem_of_omap; eauto).
    destruct (Hrow pst r Hr) as (usr' & _ & _ & Heq).
    rewrite Hperm in Hj. apply elem_of_app in Hj as [Hin|Hin].
    + left. exists r. by rewrite Heq in *.
    + right. intros r' Hr'. specialize (Hnewer r' r Hr' Hin).
      unfold Db.newer in Hnewer. by rewrite Heq in Hnewer.
  - eexists. split; [exact Hperm|]. intros r r'. apply Hnewer.
  - unfold DbReset.allPosts. rewrite merge_sort_Permutation.
    apply (joined_length _ d (posts d)).
  - apply (StronglySorted_merge_sort Db.newer).
  - intros r Hin. unfold DbReset.allPosts in Hin.
    apply elem_of_merge_sort, list_elem_of_omap in Hin as (pst & Hpst & Hr).
    destruct (Hrow' pst r Hr) as (usr & ? & ? & ->). by exists pst, usr.
  - intros pst Hpst (usr & Ha)%author_Some.
    assert (is_Some (DbReset.post_row d pst)) as [r Hr]
      by (unfold DbReset.post_row; rewrite Ha; by eexists).
    destruct (Hrow' pst r Hr) as (usr' & _ & _ & Heq).
    exists r. split; [|by rewrite Heq].
    unfold DbReset.allPosts. apply elem_of_merge_sort, list_elem_of_omap. eauto.
  - apply merge_sort_Permutation.
  - by vm_compute.
  - by vm_compute.
  - by vm_compute.
  - apply Forall_forall. intros r Hr. vm_compute in Hr.
    repeat (apply elem_of_cons in Hr as [->|Hr]; [by vm_compute|]).
    by apply elem_of_nil in Hr.
  - by vm_compute.
Qed.

(** * Further properties of the presence table *)

Section PresenceInvariant.





End PresenceInvariant.



Section Routing.

Lemma userPayload_userId r :
  Server.userPayload (Db.online_row r) !! "userId" = Some (VStr (o_userId r)).
Proof.
  unfold Server.userPayload, field. rewrite lookup_insert_eq.
  by rewrite online_row_userId.
Qed.

Lemma entries_of_payload u (rows : list OnlineUser) :
  entries_of u (Server.userPayload <$> (Db.online_row <$> rows))
    = Server.userPayload <$> (Db.online_row <$> filter (λ r, o_userId r = u) rows).
Proof.
  unfold entries_of. induction rows as [|r rows IH]; [done|]. csimpl.
  destruct (decide (o_userId r = u)) as [Heq|Hne].
  - rewrite !filter_cons_True; [by rewrite IH | done |].
    by rewrite userPayload_userId, Heq.
  - rewrite !filter_cons_False; [done | done |].
    rewrite userPayload_userId. congruence.
Qed.

Lemma filter_complement_nil {A} (P : A → Prop) `{∀ x, Decision (P x)} (l : list A) :
  filter P (filter (λ x, ¬ P x) l) = [].
Proof.
  induction l as [|x l IH]; [done|].
  destruct (decide (P x)).
  - by rewrite (filter_cons_False (λ x, ¬ P x)) by tauto.
  - rewrite (filter_cons_True (λ x, ¬ P x)) by done.
    by rewrite filter_cons_False.
Qed.

(** The socket a lookup yields is the socket of a stored row of that
    user. *)
Lemma resolveSocket_Some u d sid :
  Db.resolveSocket u d = Some sid →
  ∃ r, r ∈ online_users d ∧ o_userId r = u ∧ o_socketId r = sid.
Proof.
  unfold Db.resolveSocket. intros Hres.
  destruct (filter _ _) as [|r rs] eqn:Hf; [done|].
  injection Hres as <-. exists r.
  assert (r ∈ filter (λ r, o_userId r = u) (online_users d)) as Hr
    by (rewrite Hf; left).
  apply list_elem_of_filter in Hr. tauto.
Qed.

(** Whatever fails, the room a message is delivered to is the socket that
    the lookup finds for some user in the store before the handler ran. *)
Lemma privateMessage_room msg s w sid ev m :
  AEmit (ToRoom sid) ev m ∈ (Server.privateMessage msg s w).2 →
  ∃ u, Db.resolveSocket u (db w) = Some sid.
Proof.
  unfold Server.privateMessage.
  destruct (truthy_str (pm_senderId msg)) as [a|];
    [|by intros ?%elem_of_nil].
  destruct (truthy_str (pm_recipientId msg)) as [b|];
    [|by intros ?%elem_of_nil].
  destruct (truthy_str (pm_message msg)) as [t|];
    [|by intros ?%elem_of_nil].
  unfold Db.savePrivateMessage, Db.getRecipientSocketId, select, update, query.
  unfold_m.
  destruct (faults w) as [|[] [|[] fs]]; simpl;
    try (destruct (truthy_str (Db.resolveSocket b _)) as [sid'|] eqn:Hsid; simpl);
    intros Hin;
    repeat (apply elem_of_cons in Hin as [Hin|Hin]; [try discriminate Hin|]);
    try (by apply elem_of_nil in Hin);
    injection Hin as -> _ _; exists b;
    unfold truthy_str in Hsid;
    by destruct (truthy (Db.resolveSocket b _)).
Qed.

End Routing.

(** X2: userOffline with a non-empty userId, from any socket and without
    storage failure: every presence row of the named user is deleted (the
    rows of all other users stay), the socket lookup for that user finds
    nothing, the sending socket loses its userId, and the one broadcast
    is the online list without any entry for that user. *)
Theorem userOffline_removes_user (u : string) (s : Socket) (w : World) :
  reliable w →
  truthy (Some u) = true →
  ∃ w' tr,
    Server.userOffline (Some u) s w = (Ok (mkSocket (sock_id s) None), w', tr)
    ∧ online_users (db w') = filter (λ r, o_userId r ≠ u) (online_users (db w))
    ∧ Db.resolveSocket u (db w') = None
    ∧ ∃ payload,
        emitted tr = [AEmit Broadcast "onlineUsers" (PList payload)]
        ∧ payload = Server.userPayload <$> (Db.online_row <$> online_users (db w'))
        ∧ entries_of u payload = [].
Proof.
  intros Hr Hu. unfold Server.userOffline.
  apply truthy_str_Some in Hu as (? & [= <-] & ->).
  unfold Db.removeOnlineStatusByUserId, Server.broadcastOnlineUsers,
    Db.getOnlineUsers. unfold_m. do 2 run_query.
  eexists _, _. split; [reflexivity|]. simpl. split_and!; [done| |].
  - unfold Db.resolveSocket. simpl.
    by rewrite (filter_complement_nil (λ r, o_userId r = u)).
  - eexists. split_and!; [done..|].
    rewrite entries_of_payload.
    by rewrite (filter_complement_nil (λ r, o_userId r = u)).
Qed.

Lemma userOffline_removes_user_witness :
  ∃ w' tr,
    Server.userOffline (Some "u1") socket0 world1
      = (Ok (mkSocket (sock_id socket0) None), w', tr)
    ∧ online_users (db w')
        = filter (λ r, o_userId r ≠ "u1") (online_users (db world1))
    ∧ Db.resolveSocket "u1" (db w') = None
    ∧ ∃ payload,
        emitted tr = [AEmit Broadcast "onlineUsers" (PList payload)]
        ∧ payload = Server.userPayload <$> (Db.online_row <$> online_users (db w'))
        ∧ entries_of "u1" payload = [].
Proof.
  apply (userOffline_removes_user "u1" socket0 world1); [|reflexivity].
  intros b Hb. by apply elem_of_nil in Hb.
Defined.

(** X3: once an identified socket has disconnected (no storage failure),
    no user resolves to that socket any more, and a private message
    handled afterwards, from any socket, to any recipient and whatever
    fails, is never delivered to the room of the closed socket. *)
Theorem disconnect_unroutable (s : Socket) (w : World) :
  reliable w →
  truthy (sock_userId s) = true →
  let w1 := (Server.disconnect s w).1.2 in
    (∀ u, Db.resolveSocket u (db w1) ≠ Some (sock_id s))
    ∧ ∀ msg s2 fs ev m,
        AEmit (ToRoom (sock_id s)) ev m
          ∉ (Server.privateMessage msg s2 (set_faults fs w1)).2.
Proof.
  intros Hr Hid w1. subst w1. rewrite (disconnect_ok s w Hr), Hid. simpl.
  assert (∀ u d, online_users d
                   = filter (λ r, o_socketId r ≠ sock_id s) (online_users (db w)) →
                 Db.resolveSocket u d ≠ Some (sock_id s)) as Hno.
  { intros u d Hd (r & Hin & _ & Hsid)%resolveSocket_Some.
    rewrite Hd in Hin. apply list_elem_of_filter in Hin. tauto. }
  split.
  - intros u. by apply Hno.
  - intros msg s2 fs ev m (u & Hu)%privateMessage_room.
    by apply Hno in Hu.
Qed.

Lemma disconnect_unroutable_witness :
  let w1 := (Server.disconnect socket1 world1).1.2 in
  (∀ u, Db.resolveSocket u (db w1) ≠ Some (sock_id socket1))
  ∧ ∀ msg s2 fs ev m,
      AEmit (ToRoom (sock_id socket1)) ev m
        ∉ (Server.privateMessage msg s2 (set_faults fs w1)).2.
Proof.
  apply (disconnect_unroutable socket1 world1); [|reflexivity].
  intros b Hb. by apply elem_of_nil in Hb.
Defined.

Section Rename.

Variables (u n c : string).

Lemma filter_user_row (rows : list OnlineUser) n0 c0 :
  NoDup (o_userId <$> rows) → mkOnline u n0 c0 ∈ rows →
  filter (λ r, o_userId r = u) rows = [mkOnline u n0 c0].
Proof.
  induction rows as [|r rows IH]; csimpl.
  - by intros _ ?%elem_of_nil.
  - rewrite NoDup_cons, elem_of_cons. intros [Hnin Hnd] [<-|Hin].
    + rewrite filter_cons_True by done.
      by rewrite (filter_user_absent u).
    + rewrite filter_cons_False; [auto|]. intros Heq. apply Hnin.
      rewrite Heq. apply list_elem_of_fmap. by exists (mkOnline u n0 c0).
Qed.

Lemma filter_user_map (f : OnlineUser → OnlineUser) (rows : list OnlineUser) :
  (∀ r, o_userId (f r) = o_userId r) →
  filter (λ r, o_userId r = u) (f <$> rows)
    = f <$> filter (λ r, o_userId r = u) rows.
Proof.
  intros Hf. induction rows as [|r rows IH]; [done|]. csimpl.
  destruct (decide (o_userId r = u)).
  - rewrite !filter_cons_True by (by rewrite ?Hf). csimpl. by rewrite IH.
  - by rewrite !filter_cons_False by (by rewrite ?Hf).
Qed.

Lemma upsert_userId_keeps_name (rows : list OnlineUser) n0 c0 :
  NoDup (o_userId <$> rows) → mkOnline u n0 c0 ∈ rows →
  filter (λ r, o_userId r = u) (Db.upsert_online KeyUserId u n c rows)
    = [mkOnline u n0 c].
Proof.
  intros Hnd Hin. unfold Db.upsert_online.
  assert (existsb (Db.dup_key KeyUserId u c) rows = true) as ->.
  { apply existsb_dup_userId, list_elem_of_fmap. by exists (mkOnline u n0 c0). }
  rewrite filter_user_map.
  - rewrite (filter_user_row rows n0 c0) by done. csimpl.
    unfold Db.dup_key. simpl. by rewrite bool_decide_true.
  - intros r. by destruct (Db.dup_key _ _ _ _).
Qed.

End Rename.

(** X4: marking online a user who already has a presence row, on a table
    keyed by userId and without storage failure.  [setOnlineStatus] (ON
    DUPLICATE KEY UPDATE socketId) moves the row to the new socket and
    keeps the username stored before, whatever username the call passes;
    [registerOnlineUser] (delete, then insert) stores the username of the
    call. *)
Theorem reconnect_username (u n0 c0 n c : string) (w : World) :
  reliable w →
  key w = KeyUserId →
  key_ok KeyUserId (online_users (db w)) →
  mkOnline u n0 c0 ∈ online_users (db w) →
  filter (λ r, o_userId r = u)
    (online_users (db (Db.setOnlineStatus u n c w).1.2)) = [mkOnline u n0 c]
  ∧ filter (λ r, o_userId r = u)
      (online_users (db (DbReset.registerOnlineUser u n c w).1.2))
      = [mkOnline u n c].
Proof.
  intros Hr Hk Hnd Hin. split.
  - unfold Db.setOnlineStatus. unfold_m. rewrite Hk. run_query.
    by eapply upsert_userId_keeps_name.
  - unfold DbReset.registerOnlineUser. unfold_m. run_query. rewrite Hk.
    erewrite query_ok; [| eauto with world |]; last first.
    { simpl. rewrite register_userId. reflexivity. }
    simpl. by apply register_userId_rows.
Qed.

Lemma reconnect_username_witness :
  filter (λ r, o_userId r = "u1")
    (online_users (db (Db.setOnlineStatus "u1" "alice2" "s2" world1).1.2))
    = [mkOnline "u1" "alice" "s2"]
  ∧ filter (λ r, o_userId r = "u1")
      (online_users (db (DbReset.registerOnlineUser "u1" "alice2" "s2" world1).1.2))
      = [mkOnline "u1" "alice2" "s2"].
Proof.
  apply (reconnect_username "u1" "alice" "s1" "alice2" "s2" world1);
    [ intros b Hb; by apply elem_of_nil in Hb | reflexivity
    | simpl; apply NoDup_singleton | simpl; left ].
Defined.

(** * Further properties of private messages *)

(** X5: a valid private message to a recipient whose presence row has a
    non-empty socket id, without storage failure: the message is appended
    to [messages] with a fresh id, and exactly two events are emitted, the
    message to the room of the recipient's socket and then the same
    payload back on the sender's socket. *)
Theorem online_recipient_delivery (a b m sid : string) (s : Socket) (w : World) :
  reliable w →
  truthy (Some a) = true → truthy (Some b) = true → truthy (Some m) = true →
  Db.resolveSocket b (db w) = Some sid → truthy (Some sid) = true →
  ∃ w' tr,
    Server.privateMessage (mkPrivateMsg (Some a) (Some b) (Some m)) s w
      = (Ok s, w', tr)
    ∧ messages (db w') =
        messages (db w)
        ++ [mkMessage (S (max_list (m_message_id <$> messages (db w)))) a b m (now w)]
    ∧ emitted tr =
        [AEmit (ToRoom sid) "newPrivateMessage" (Server.fullMsg a b m (now w));
         AEmit ToSelf "newPrivateMessage" (Server.fullMsg a b m (now w))].
Proof.
  intros Hr Ha Hb Hm Hres Hsid. eexists _, _.
  split; [by apply privateMessage_ok|]. split; [done|].
  rewrite Hres. unfold truthy_str. by rewrite Hsid.
Qed.

Lemma online_recipient_delivery_witness :
  ∃ w' tr,
    Server.privateMessage (mkPrivateMsg (Some "u2") (Some "u1") (Some "hi"))
      socket0 world1 = (Ok socket0, w', tr)
    ∧ messages (db w') =
        messages (db world1)
        ++ [mkMessage (S (max_list (m_message_id <$> messages (db world1))))
              "u2" "u1" "hi" (now world1)]
    ∧ emitted tr =
        [AEmit (ToRoom "s1") "newPrivateMessage"
           (Server.fullMsg "u2" "u1" "hi" (now world1));
         AEmit ToSelf "newPrivateMessage"
           (Server.fullMsg "u2" "u1" "hi" (now world1))].
Proof.
  apply (online_recipient_delivery "u2" "u1" "hi" "s1" socket0 world1);
    [intros b Hb; by apply elem_of_nil in Hb | reflexivity..].
Defined.

Section MessageLog.

(** Under any fault schedule the handler leaves [messages] alone or
    appends the one message of the event, with the next id. *)
Lemma truthy_str_inv v x : truthy_str v = Some x → v = Some x.
Proof. unfold truthy_str. by destruct (truthy v). Qed.

Lemma privateMessage_messages msg s w :
  let w' := (Server.privateMessage msg s w).1.2 in
  messages (db w') = messages (db w)
  ∨ ∃ a b m,
      pm_senderId msg = Some a ∧ pm_recipientId msg = Some b
      ∧ messages (db w') =
          messages (db w)
          ++ [mkMessage (S (max_list (m_message_id <$> messages (db w))))
                a b m (now w)].
Proof.
  unfold Server.privateMessage.
  destruct (truthy_str (pm_senderId msg)) as [a|] eqn:Ha; [|by left].
  destruct (truthy_str (pm_recipientId msg)) as [b|] eqn:Hb; [|by left].
  destruct (truthy_str (pm_message msg)) as [m|] eqn:Hm; [|by left].
  apply truthy_str_inv in Ha, Hb.
  unfold Db.savePrivateMessage, Db.getRecipientSocketId, select, update, query.
  unfold_m.
  destruct (faults w) as [|[] [|[] fs]]; simpl;
    try (match goal with
         | |- context [truthy_str ?v] => destruct (truthy_str v)
         end; simpl);
    first [by left | right; by exists a, b, m].
Qed.

End MessageLog.

(** X6: whatever a privateMessage event carries and whichever statements
    fail, the handler never changes the history of another conversation
    (one whose two ends are not the sender and recipient of the event),
    and message ids stay pairwise distinct. *)
Theorem privateMessage_frame (msg : PrivateMsg) (s : Socket) (w : World)
    (x y : string) :
  ¬ ((pm_senderId msg = Some x ∧ pm_recipientId msg = Some y)
     ∨ (pm_senderId msg = Some y ∧ pm_recipientId msg = Some x)) →
  NoDup (m_message_id <$> messages (db w)) →
  Db.chatHistory x y (db (Server.privateMessage msg s w).1.2)
    = Db.chatHistory x y (db w)
  ∧ NoDup (m_message_id <$> messages (db (Server.privateMessage msg s w).1.2)).
Proof.
  intros Hother Hnd.
  destruct (privateMessage_messages msg s w) as [Heq | (a & b & m & Ha & Hb & Heq)].
  - unfold Db.chatHistory. by rewrite Heq.
  - split.
    + unfold Db.chatHistory. rewrite Heq.
      rewrite filter_app, filter_cons_False.
      * by rewrite filter_nil, app_nil_r.
      * unfold Db.between. simpl. intros [[-> ->] | [-> ->]]; tauto.
    + rewrite Heq, fmap_app. apply NoDup_app. split_and!; [done| |apply NoDup_singleton].
      intros i Hi ->%list_elem_of_singleton. simpl in Hi.
      by apply (max_list_not_elem_of_gt _ _ (Nat.lt_succ_diag_r _)) in Hi.
Qed.

Lemma privateMessage_frame_witness :
  Db.chatHistory "u1" "u3" (db (Server.privateMessage hi socket0 world0).1.2)
    = Db.chatHistory "u1" "u3" (db world0)
  ∧ NoDup (m_message_id <$>
             messages (db (Server.privateMessage hi socket0 world0).1.2)).
Proof.
  apply (privateMessage_frame hi socket0 world0 "u1" "u3").
  - simpl. intros [[_ [=]] | [[=] _]].
  - apply NoDup_nil_2.
Defined.

(** * Further properties of likes *)

Section LikeFrame.

Variables (p u : string).

Lemma hasLike_iff p' u' d :
  hasLike p' u' d = true ↔ mkLike p' u' ∈ likes d.
Proof.
  unfold hasLike. rewrite bool_decide_eq_true, Exists_exists. split.
  - intros ([p0 u0] & Hin & Hp & Hu). simpl in *. by subst.
  - intros Hin. by exists (mkLike p' u').
Qed.

Lemma toggled_mem p' u' d :
  (p', u') ≠ (p, u) →
  hasLike p' u' (toggled p u d) = hasLike p' u' d.
Proof.
  intros Hne. apply eq_true_iff_eq. rewrite !hasLike_iff.
  unfold toggled. destruct (hasLike p u d); simpl.
  - rewrite list_elem_of_filter. unfold Db.like_of. simpl.
    split; [tauto|]. intros Hin. split; [|done]. intros [-> ->]. done.
  - rewrite elem_of_app, list_elem_of_singleton.
    split; [|tauto]. intros [?|[= -> ->]]; done.
Qed.

Lemma toggled_count_other q d :
  q ≠ p → Db.countLikes q (toggled p u d) = Db.countLikes q d.
Proof.
  intros Hne. unfold Db.countLikes, toggled.
  destruct (hasLike p u d); simpl.
  - rewrite list_filter_filter. f_equal. apply list_filter_iff.
    intros [p0 u0]. unfold Db.like_of. simpl. split; [tauto|].
    intros ->. split; [done|]. intros [? _]. done.
  - rewrite filter_app, filter_cons_False by done.
    by rewrite filter_nil, app_nil_r.
Qed.

Lemma toggled_count_up d :
  hasLike p u d = false → Db.countLikes p (toggled p u d) = S (Db.countLikes p d).
Proof.
  intros Hno. unfold Db.countLikes, toggled. rewrite Hno. simpl.
  rewrite filter_app, filter_cons_True by done.
  rewrite filter_nil, length_app. simpl. lia.
Qed.

Lemma toggled_count_down d :
  length (filter (Db.like_of p u) (likes d)) = 1 →
  S (Db.countLikes p (toggled p u d)) = Db.countLikes p d.
Proof.
  intros Hone. unfold Db.countLikes, toggled.
  assert (hasLike p u d = true) as ->.
  { apply head_filter_hasLike. destruct (filter _ _); [done|]. by eexists. }
  simpl.
  enough (length (filter (λ l, l_post_id l = p) (likes d))
          = length (filter (λ l, l_post_id l = p)
                      (filter (λ l, ¬ Db.like_of p u l) (likes d)))
            + length (filter (Db.like_of p u) (likes d))) by lia.
  clear Hone.
  induction (likes d) as [|[p0 u0] ls IH]; [done|].
  destruct (decide (p0 = p)) as [->|Hp].
  - rewrite (filter_cons_True (λ l, l_post_id l = p)) by done. simpl.
    destruct (decide (u0 = u)) as [->|Hu].
    + rewrite (filter_cons_False (λ l, ¬ Db.like_of p u l))
        by (unfold Db.like_of; simpl; tauto).
      rewrite (filter_cons_True (Db.like_of p u)) by done. simpl. lia.
    + rewrite (filter_cons_True (λ l, ¬ Db.like_of p u l))
        by (unfold Db.like_of; simpl; tauto).
      rewrite (filter_cons_True (λ l, l_post_id l = p)) by done.
      rewrite (filter_cons_False (Db.like_of p u))
        by (unfold Db.like_of; simpl; tauto).
      simpl. lia.
  - rewrite (filter_cons_False (λ l, l_post_id l = p)) by done.
    rewrite (filter_cons_True (λ l, ¬ Db.like_of p u l))
      by (unfold Db.like_of; simpl; tauto).
    rewrite (filter_cons_False (λ l, l_post_id l = p)) by done.
    rewrite (filter_cons_False (Db.like_of p u))
      by (unfold Db.like_of; simpl; tauto).
    done.
Qed.

Lemma toggled_twice d :
  hasLike p u d = false → toggled p u (toggled p u d) = d.
Proof.
  intros Hno. unfold toggled at 1. rewrite hasLike_toggled, Hno. simpl.
  unfold toggled. rewrite Hno. simpl.
  rewrite filter_app, filter_cons_False by (unfold Db.like_of; simpl; tauto).
  rewrite filter_nil, app_nil_r.
  assert (filter (λ l, ¬ Db.like_of p u l) (likes d) = likes d) as ->.
  { assert (∀ l, l ∈ likes d → ¬ Db.like_of p u l) as Hall.
    { intros l Hl Hlike. assert (hasLike p u d = true); [|congruence].
      unfold hasLike. apply bool_decide_eq_true, Exists_exists. eauto. }
    induction (likes d) as [|l ls IH]; [done|].
    rewrite filter_cons_True by (apply Hall; left).
    f_equal. apply IH. intros l' Hl'. apply Hall. by right. }
  by destruct d.
Qed.

End LikeFrame.

Section LikeCounts.

Variables (p u : string).

Let ev := like_event p u.

(** From a store in which the pair is not liked, a run of toggles
    alternates between the toggled store and the store itself. *)
Lemma db_after_likes n s w :
  reliable w → hasLike p u (db w) = false →
  db (world_after (replicate n ev) s w)
    = if Nat.odd n then toggled p u (db w) else db w.
Proof.
  enough (∀ n w, reliable w → hasLike p u (db w) = false →
            db (world_after (replicate n ev) s w)
              = (if Nat.odd n then toggled p u (db w) else db w)
            ∧ db (world_after (replicate (S n) ev) s w)
              = (if Nat.odd (S n) then toggled p u (db w) else db w)) as H
    by (intros Hr Hno; by apply H).
  clear n w. induction n as [|n IH]; intros w Hr Hno.
  - split; [done|].
    change (replicate 1 ev) with (ev :: []).
    unfold ev. by rewrite world_after_like_cons.
  - destruct (IH w Hr Hno) as [_ IH1]. split; [done|].
    change (replicate (S (S n)) ev) with (ev :: ev :: replicate n ev).
    unfold ev.
    rewrite !world_after_like_cons by eauto using reliable_like_step.
    assert (db (like_step p u (like_step p u w)) = db w) as Hdb.
    { unfold like_step. simpl. by apply toggled_twice. }
    destruct (IH (like_step p u (like_step p u w))) as [IH0 _].
    { eauto using reliable_like_step. }
    { by rewrite Hdb. }
    fold ev in IH0 |- *. rewrite IH0, Hdb.
    by rewrite (Nat.odd_succ (S n)), Nat.even_succ.
Qed.

Lemma rows_after_likes n s w :
  reliable w → hasLike p u (db w) = false →
  Db.countLikes p (db (world_after (replicate n ev) s w))
    = Db.countLikes p (db w) + (if Nat.odd n then 1 else 0).
Proof.
  intros Hr Hno. rewrite db_after_likes by done.
  destruct (Nat.odd n); [|lia].
  rewrite toggled_count_up by done. lia.
Qed.

End LikeCounts.

(** C1: for a run of [n] like toggles of one (postId, userId) pair, handled
    one after the other without storage failure from a store in which the
    pair is not liked, the Like fact is present afterwards iff [n] is odd,
    and the broadcasts are exactly [n] [likeUpdate] events to every
    connection, one per toggle.  The event of toggle number [k + 1] names
    the post in its field postId and carries in its field newCount the
    number of rows of the Like table for that post as the table is after
    that toggle (the result of the COUNT query, not a running counter):
    the count of the initial table, plus one after an odd number of
    toggles. *)
Theorem like_toggle_parity_and_fresh_count (p u : string) (n : nat)
    (s : Socket) (w : World) :
  reliable w →
  hasLike p u (db w) = false →
  let es k := replicate k (like_event p u) in
  let rows_of d := length (filter (λ l, l_post_id l = p) (likes d)) in
  (hasLike p u (db (world_after (es n) s w)) = true ↔ Nat.Odd n)
  ∧ emitted (trace_of (es n) s w) = like_broadcast p u s w <$> seq 0 n
  ∧ length (emitted (trace_of (es n) s w)) = n
  ∧ ∀ k, k < n →
      ∃ o, emitted (trace_of (es n) s w) !! k
             = Some (AEmit Broadcast "likeUpdate" (PObj o))
           ∧ o !! "postId" = Some (VStr p)
           ∧ o !! "newCount"
               = Some (VNum (rows_of (db (world_after (es (S k)) s w))))
           ∧ rows_of (db (world_after (es (S k)) s w))
               = rows_of (db w) + (if Nat.odd (S k) then 1 else 0).
Proof.
  intros Hr H0 es rows_of. destruct (likes_after p u n s w Hr) as [Hl Ht].
  split_and!.
  - unfold es. rewrite Hl, H0. simpl. by rewrite <- Nat.odd_spec.
  - done.
  - unfold es. by rewrite Ht, length_fmap, length_seq.
  - intros k Hk. unfold es. rewrite Ht, list_lookup_fmap, lookup_seq_lt by done.
    simpl. unfold like_broadcast, Server.likeUpdate. eexists. split; [done|].
    split_and!.
    + by rewrite lookup_insert_eq.
    + by rewrite lookup_insert_ne, lookup_singleton_eq.
    + apply (rows_after_likes p u (S k) s w Hr H0).
Qed.

Lemma like_toggle_parity_and_fresh_count_witness :
  reliable world0 ∧ hasLike "p1" "u1" (db world0) = false ∧
  let es k := replicate k (like_event "p1" "u1") in
  let rows_of d := length (filter (λ l, l_post_id l = "p1") (likes d)) in
  (hasLike "p1" "u1" (db (world_after (es 3) socket0 world0)) = true ↔ Nat.Odd 3)
  ∧ emitted (trace_of (es 3) socket0 world0)
      = like_broadcast "p1" "u1" socket0 world0 <$> seq 0 3
  ∧ length (emitted (trace_of (es 3) socket0 world0)) = 3
  ∧ ∀ k, k < 3 →
      ∃ o, emitted (trace_of (es 3) socket0 world0) !! k
             = Some (AEmit Broadcast "likeUpdate" (PObj o))
           ∧ o !! "postId" = Some (VStr "p1")
           ∧ o !! "newCount"
               = Some (VNum (rows_of (db (world_after (es (S k)) socket0 world0))))
           ∧ rows_of (db (world_after (es (S k)) socket0 world0))
               = rows_of (db world0) + (if Nat.odd (S k) then 1 else 0).
Proof.
  split; [exact reliable_world0|]. split; [reflexivity|].
  apply (like_toggle_parity_and_fresh_count "p1" "u1" 3 socket0 world0);
    [exact reliable_world0|reflexivity].
Defined.

(** X7: a likePost of (postId, userId) handled without storage failure
    touches nothing but that pair: every other pair keeps its membership,
    every other post keeps its count and the other tables are as before;
    the count of the post rises by one when the pair was not liked, and
    falls by one when the pair was stored once. *)
Theorem likePost_frame (p u : string) (s : Socket) (w : World) :
  reliable w →
  let d' := db (Server.likePost (mkLikeData (Some p) (Some u)) s w).1.2 in
    (∀ p' u', (p', u') ≠ (p, u) → hasLike p' u' d' = hasLike p' u' (db w))
    ∧ (∀ q, q ≠ p → Db.countLikes q d' = Db.countLikes q (db w))
    ∧ (hasLike p u (db w) = false →
       Db.countLikes p d' = S (Db.countLikes p (db w)))
    ∧ (length (filter (Db.like_of p u) (likes (db w))) = 1 →
       S (Db.countLikes p d') = Db.countLikes p (db w))
    ∧ (users d', posts d', comments d', online_users d', messages d')
        = (users (db w), posts (db w), comments (db w), online_users (db w),
           messages (db w)).
Proof.
  intros Hr d'. subst d'. rewrite likePost_ok by done. simpl.
  split_and!.
  - intros p' u'. apply toggled_mem.
  - intros q. apply toggled_count_other.
  - apply toggled_count_up.
  - apply toggled_count_down.
  - unfold toggled. by destruct (hasLike p u (db w)).
Qed.

Lemma likePost_frame_witness :
  let d' := db (Server.likePost (mkLikeData (Some "p1") (Some "u1"))
                  socket0 world0).1.2 in
    (∀ p' u', (p', u') ≠ ("p1", "u1") → hasLike p' u' d' = hasLike p' u' (db world0))
    ∧ (∀ q, q ≠ "p1" → Db.countLikes q d' = Db.countLikes q (db world0))
    ∧ (hasLike "p1" "u1" (db world0) = false →
       Db.countLikes "p1" d' = S (Db.countLikes "p1" (db world0)))
    ∧ (length (filter (Db.like_of "p1" "u1") (likes (db world0))) = 1 →
       S (Db.countLikes "p1" d') = Db.countLikes "p1" (db world0))
    ∧ (users d', posts d', comments d', online_users d', messages d')
        = (users (db world0), posts (db world0), comments (db world0),
           online_users (db world0), messages (db world0)).
Proof.
  apply (likePost_frame "p1" "u1" socket0 world0).
  intros b Hb. by apply elem_of_nil in Hb.
Defined.

(** X8: liking a post and liking it again (two likePost events of a pair
    that was not liked, the second taken up only when the handler of the
    first has run to completion, no storage failure) gives back the store
    as it was: the second toggle deletes exactly the row the first one
    inserted. *)
Theorem like_unlike_restores (p u : string) (s : Socket) (w : World) :
  reliable w →
  hasLike p u (db w) = false →
  db (world_after (replicate 2 (like_event p u)) s w) = db w.
Proof.
  intros Hr Hno. change (replicate 2 (like_event p u))
    with (like_event p u :: like_event p u :: []).
  rewrite !world_after_like_cons by eauto using reliable_like_step.
  unfold world_after, like_step. simpl. by apply toggled_twice.
Qed.

Lemma like_unlike_restores_witness :
  db (world_after (replicate 2 (like_event "p1" "u1")) socket0 world0) = db world0.
Proof.
  apply (like_unlike_restores "p1" "u1" socket0 world0); [|reflexivity].
  intros b Hb. by apply elem_of_nil in Hb.
Defined.

(** * The guarded disconnect of the password-reset revision *)

Section GuardedDisconnect.

Lemma reset_disconnect_ok s w :
  reliable w →
  ResetServer.disconnect s w =
    let d := set_online
               (filter (λ r, o_socketId r ≠ sock_id s) (online_users (db w)))
               (db w) in
    if bool_decide (Exists (λ r, o_socketId r = sock_id s) (online_users (db w)))
    then (Ok (), set_db d (tick (tick w)),
          [AQuery DeleteOnlineBySocket true; AQuery SelectOnline true;
           AEmit Broadcast "onlineUsers"
             (PList (Server.userPayload <$>
                       (DbReset.online_row <$> online_users d)))])
    else (Ok (), set_db d (tick w), [AQuery DeleteOnlineBySocket true]).
Proof.
  intros Hr. unfold ResetServer.disconnect, DbReset.unregisterOnlineUser,
    ResetServer.broadcastOnlineUsers, DbReset.getOnlineUsers. unfold_m.
  erewrite query_ok; [|done|reflexivity]. simpl.
  destruct (bool_decide _); [|done]. simpl. by run_query.
Qed.

Lemma no_row_after_delete sid (rows : list OnlineUser) :
  ¬ Exists (λ r, o_socketId r = sid) (filter (λ r, o_socketId r ≠ sid) rows).
Proof.
  rewrite Exists_exists. intros (r & Hin & Hsid).
  apply list_elem_of_filter in Hin. tauto.
Qed.

End GuardedDisconnect.

(** X9: the disconnect handler of the revision with
    [unregisterOnlineUser], without storage failure: it deletes the rows
    of the socket and broadcasts the online list exactly when a row was
    deleted; run a second time on the same socket it deletes nothing and
    emits nothing. *)
Theorem guarded_disconnect_idempotent (s : Socket) (w : World) :
  reliable w →
  let w1 := (ResetServer.disconnect s w).1.2 in
  let t1 := (ResetServer.disconnect s w).2 in
  let w2 := (ResetServer.disconnect s w1).1.2 in
  let t2 := (ResetServer.disconnect s w1).2 in
    online_users (db w1)
      = filter (λ r, o_socketId r ≠ sock_id s) (online_users (db w))
    ∧ (emitted t1 ≠ [] ↔ ∃ r, r ∈ online_users (db w) ∧ o_socketId r = sock_id s)
    ∧ db w2 = db w1
    ∧ emitted t2 = [].
Proof.
  intros Hr w1 t1 w2 t2. subst w1 t1 w2 t2.
  rewrite (reset_disconnect_ok s w Hr). simpl.
  destruct (bool_decide _) eqn:Hex; simpl.
  - apply bool_decide_eq_true, Exists_exists in Hex.
    rewrite reset_disconnect_ok by eauto with world. simpl.
    rewrite bool_decide_false by apply no_row_after_delete. simpl.
    rewrite filter_twice. split_and!; [done| |by destruct (db w)|done].
    split; [done|]. intros _. discriminate.
  - apply bool_decide_eq_false in Hex. rewrite Exists_exists in Hex.
    rewrite reset_disconnect_ok by eauto with world. simpl.
    rewrite bool_decide_false by apply no_row_after_delete. simpl.
    rewrite filter_twice. split_and!; [done| |by destruct (db w)|done].
    split; [done|]. intros Hrow. by destruct Hex.
Qed.

Lemma guarded_disconnect_idempotent_witness :
  let w1 := (ResetServer.disconnect socket0 world1).1.2 in
  let t1 := (ResetServer.disconnect socket0 world1).2 in
  let w2 := (ResetServer.disconnect socket0 w1).1.2 in
  let t2 := (ResetServer.disconnect socket0 w1).2 in
    online_users (db w1)
      = filter (λ r, o_socketId r ≠ sock_id socket0) (online_users (db world1))
    ∧ (emitted t1 ≠ []
       ↔ ∃ r, r ∈ online_users (db world1) ∧ o_socketId r = sock_id socket0)
    ∧ db w2 = db w1
    ∧ emitted t2 = [].
Proof.
  apply (guarded_disconnect_idempotent socket0 world1).
  intros b Hb. by apply elem_of_nil in Hb.
Defined.

(** * The feed route *)

Section FeedRoute.

Lemma reliable_ticks n w : reliable w → reliable (ticks n w).
Proof. revert w. induction n; simpl; eauto with world. Qed.

Lemma db_ticks n w : db (ticks n w) = db w.
Proof. revert w. induction n as [|n IH]; intros w; [done|]. simpl. by rewrite IH. Qed.

Lemma is_liked_hasLike p u d :
  bool_decide (is_Some (head (filter (Db.like_of p u) (likes d)))) = hasLike p u d.
Proof.
  apply eq_true_iff_eq. rewrite bool_decide_eq_true. apply head_filter_hasLike.
Qed.

(** The like lookups of the feed route, in a world without faults: one
    SELECT per post, nothing emitted, the store untouched. *)
Lemma promise_all_likes u (rows : list Db.PostRow) w :
  reliable w →
  promise_all
    ((λ post,
        hasLiked ← Db.getLike (Db.pr_id post) u;
        mret (Server.mkFeedPost post (bool_decide (is_Some hasLiked))
                (Db.pr_likesCount post))) <$> rows) w
  = (Ok ((λ post, Server.mkFeedPost post (hasLike (Db.pr_id post) u (db w))
                    (Db.pr_likesCount post)) <$> rows),
     ticks (length rows) w,
     replicate (length rows) (AQuery SelectLike true)).
Proof.
  revert w. induction rows as [|r rows IH]; intros w Hr; [done|].
  cbn [fmap list_fmap promise_all length replicate ticks].
  unfold Db.getLike at 1. unfold_m. run_query.
  rewrite IH by eauto with world. simpl.
  by rewrite is_liked_hasLike.
Qed.

Lemma bind_run {A B} (m : M A) (f : A → M B) w a w1 t1 :
  m w = (Ok a, w1, t1) →
  (m ≫= f) w = match f a w1 with (r, w2, t2) => (r, w2, t1 ++ t2) end.
Proof. intros Hm. unfold mbind, M_bind. by rewrite Hm. Qed.

Lemma allPosts_row d r :
  r ∈ Db.allPosts d →
  ∃ pst usr, pst ∈ posts d ∧ usr ∈ users d
             ∧ u_user_id usr = p_user_id pst
             ∧ r = Db.mkPostRow (p_id pst) (p_user_id pst) (p_content pst)
                     (p_media_url pst) (p_created_at pst) (u_username usr)
                     (u_profile_pic_url usr) (Db.countLikes (p_id pst) d).
Proof.
  unfold Db.allPosts. intros Hin%subseteq_take.
  apply elem_of_merge_sort, list_elem_of_omap in Hin as (pst & Hpst & Hrow).
  unfold Db.post_row, Db.author in Hrow.
  destruct (filter _ (users d)) as [|usr us] eqn:Hf; [done|].
  simpl in Hrow. injection Hrow as <-. exists pst, usr.
  assert (usr ∈ filter (λ u0, u_user_id u0 = p_user_id pst) (users d)) as Hu
    by (rewrite Hf; left).
  apply list_elem_of_filter in Hu as [? ?]. done.
Qed.

End FeedRoute.

(** X10: [GET /api/posts].  Without a userId the answer is 400 and no
    statement runs.  With one, and without storage failure, the answer is
    200 with one entry per row of [getAllPosts], in the same order, whose
    [isLiked] says whether that viewer has a Like on the post and whose
    [like_count] is the aggregate count of the post; the route changes
    nothing in the store and emits nothing. *)
Theorem feed_with_like_status (userId : option string) (w : World) :
  (truthy userId = false → Server.getPosts userId w = (Ok (400, None), w, []))
  ∧ (reliable w → ∀ u, truthy_str userId = Some u →
     ∃ w' tr,
       Server.getPosts userId w =
         (Ok (200,
              Some ((λ r, Server.mkFeedPost r (hasLike (Db.pr_id r) u (db w))
                            (Db.countLikes (Db.pr_id r) (db w)))
                      <$> Db.allPosts (db w))), w', tr)
       ∧ db w' = db w ∧ emitted tr = []).
Proof.
  split.
  - intros Hf. unfold Server.getPosts. by rewrite (truthy_str_false _ Hf).
  - intros Hr u Hu. unfold Server.getPosts. rewrite Hu. unfold try_catch.
    erewrite bind_run; [|by apply select_ok].
    erewrite bind_run; [|apply promise_all_likes; eauto with world].
    simpl. eexists _, _. split; [|split].
    + do 5 f_equal. apply list_fmap_ext. intros _ r Hr'%list_elem_of_lookup_2.
      apply allPosts_row in Hr' as (pst & usr & _ & _ & _ & ->). done.
    + by rewrite db_ticks.
    + unfold emitted. rewrite filter_cons_False by (simpl; tauto).
      induction (length _) as [|n IH]; [done|]. simpl.
      by rewrite filter_cons_False by (simpl; tauto).
Qed.

Lemma feed_with_like_status_witness :
  ∃ w' tr,
    Server.getPosts (Some "u1") world_21_posts =
      (Ok (200,
           Some ((λ r, Server.mkFeedPost r
                         (hasLike (Db.pr_id r) "u1" (db world_21_posts))
                         (Db.countLikes (Db.pr_id r) (db world_21_posts)))
                   <$> Db.allPosts (db world_21_posts))), w', tr)
    ∧ db w' = db world_21_posts ∧ emitted tr = [].
Proof.
  apply (feed_with_like_status (Some "u1") world_21_posts);
    [|reflexivity].
  intros b Hb. by apply elem_of_nil in Hb.
Defined.

(** X11: the count that a likePost broadcasts and the count that the feed
    shows agree: after a toggle of (postId, userId) without storage
    failure, every feed row of that post carries, as [likesCount], the
    [newCount] of the broadcast. *)
Theorem feed_count_matches_broadcast (p u : string) (s : Socket) (w : World) :
  reliable w →
  ∀ w' tr r,
    (w', tr) = ((Server.likePost (mkLikeData (Some p) (Some u)) s w).1.2,
                (Server.likePost (mkLikeData (Some p) (Some u)) s w).2) →
    r ∈ Db.allPosts (db w') → Db.pr_id r = p →
    emitted tr
      = [AEmit Broadcast "likeUpdate" (Server.likeUpdate p (Db.pr_likesCount r))].
Proof.
  intros Hr w' tr r [= -> ->]. rewrite likePost_ok by done. simpl.
  intros (pst & usr & _ & _ & _ & ->)%allPosts_row. simpl. by intros ->.
Qed.

Lemma feed_count_matches_broadcast_witness :
  emitted (Server.likePost (mkLikeData (Some "3") (Some "u1")) socket0
             world_21_posts).2
    = [AEmit Broadcast "likeUpdate"
         (Server.likeUpdate "3"
            (Db.pr_likesCount
               (Db.mkPostRow "3" "u1" "hello" None 3 "alice" None 1)))].
Proof.
  apply (feed_count_matches_broadcast "3" "u1" socket0 world_21_posts)
    with (w' := (Server.likePost (mkLikeData (Some "3") (Some "u1")) socket0
                   world_21_posts).1.2).
  - intros b Hb. by apply elem_of_nil in Hb.
  - reflexivity.
  - apply (list_elem_of_lookup_2 _ 17). vm_compute. reflexivity.
  - reflexivity.
Defined.

(** * The comment route *)

(** X12: [POST /api/comment] has exactly three outcomes, whatever the
    body and whichever statement fails.  A missing post_id, user_id or
    content: status 400, no statement, nothing stored, nothing broadcast.
    A failed INSERT: status 500, nothing stored, nothing broadcast.  A
    successful INSERT: the comment is appended to [comments], one
    commentUpdate is broadcast and the status is 200.  So a comment is
    broadcast exactly when it has been stored. *)
Theorem postComment_outcomes (body : CommentBody) (w : World) :
  let '(r, w', tr) := Server.postComment body w in
  r = Ok ()
  ∧ ((tr = [ARespond 400 false] ∧ db w' = db w
      ∧ (truthy (cb_post_id body) && truthy (cb_user_id body)
         && truthy (cb_content body) = false))
     ∨ (tr = [AQuery InsertComment false; ARespond 500 false] ∧ db w' = db w)
     ∨ (∃ p u c o,
          cb_post_id body = Some p ∧ cb_user_id body = Some u
          ∧ cb_content body = Some c
          ∧ tr = [AQuery InsertComment true;
                  AEmit Broadcast "commentUpdate" (PObj o); ARespond 200 true]
          ∧ comments (db w')
              = comments (db w) ++ [mkComment (uuid_of (uuids w)) p u c (now w)])).
Proof.
  unfold Server.postComment, truthy_str.
  destruct (cb_post_id body) as [p|]; [|simpl; auto].
  destruct (truthy (Some p)); [|simpl; auto].
  destruct (cb_user_id body) as [u|]; [|simpl; auto].
  destruct (truthy (Some u)); [|simpl; auto].
  destruct (cb_content body) as [c|]; [|simpl; auto].
  destruct (truthy (Some c)); [|simpl; auto].
  unfold Db.createComment, uuidv4, update, query. unfold_m.
  destruct (faults w) as [|[] fs]; simpl; (split; [done|]); eauto 12.
Qed.

Section CommentListing.

Lemma commentsByPostId_other p q u c t id d :
  q ≠ p →
  Db.commentsByPostId q (set_comments (comments d ++ [mkComment id p u c t]) d)
    = Db.commentsByPostId q d.
Proof.
  intros Hne. unfold Db.commentsByPostId. simpl.
  rewrite filter_app, filter_cons_False by (simpl; congruence).
  by rewrite filter_nil, app_nil_r.
Qed.

Lemma commentsByPostId_unknown_author p u c t id d :
  (∀ usr, usr ∈ users d → u_user_id usr ≠ u) →
  Db.commentsByPostId p (set_comments (comments d ++ [mkComment id p u c t]) d)
    = Db.commentsByPostId p d.
Proof.
  intros Hno. unfold Db.commentsByPostId. simpl.
  rewrite filter_app, filter_cons_True by done.
  rewrite filter_nil, bind_app. simpl.
  assert (filter (λ usr, u_user_id usr = u) (users d) = []) as ->.
  { induction (users d) as [|usr us IH]; [done|].
    rewrite filter_cons_False by (apply Hno; left).
    apply IH. intros usr' Hin. apply Hno. by right. }
  simpl. by rewrite app_nil_r.
Qed.

End CommentListing.

(** X13: a comment saved by [POST /api/comment] (valid body, no storage
    failure) and the listing of [getCommentsByPostId].  If the author has
    a row in [users], the listing of the post then has a row with the
    content of the comment and with the username and picture of that
    [users] row (not those of the request body).  If no [users] row has
    the author's id, the listing of the post is what it was before: the
    comment was broadcast but is never listed.  The listings of all other
    posts are unchanged. *)
Theorem comment_listing_after_post (body : CommentBody) (p u c : string)
    (w : World) :
  reliable w →
  truthy_str (cb_post_id body) = Some p →
  truthy_str (cb_user_id body) = Some u →
  truthy_str (cb_content body) = Some c →
  let d' := db (Server.postComment body w).1.2 in
    (∀ usr, usr ∈ users (db w) → u_user_id usr = u →
       ∃ r, r ∈ Db.commentsByPostId p d'
            ∧ Db.cr_content r = c ∧ Db.cr_user_id r = u
            ∧ Db.cr_username r = u_username usr
            ∧ Db.cr_profilePicUrl r = u_profile_pic_url usr)
    ∧ ((∀ usr, usr ∈ users (db w) → u_user_id usr ≠ u) →
       Db.commentsByPostId p d' = Db.commentsByPostId p (db w))
    ∧ (∀ q, q ≠ p → Db.commentsByPostId q d' = Db.commentsByPostId q (db w)).
Proof.
  intros Hr Hp Hu Hc d'. subst d'.
  rewrite (postComment_ok body p u c w) by done. simpl. split_and!.
  - intros usr Hin Hid.
    exists (Db.comment_row (mkComment (uuid_of (uuids w)) p u c (now w)) usr).
    split; [|done]. apply commentsByPostId_joined.
    exists (mkComment (uuid_of (uuids w)) p u c (now w)), usr.
    split_and!; try done.
    simpl. apply elem_of_app. right. left.
  - apply commentsByPostId_unknown_author.
  - intros q. apply commentsByPostId_other.
Qed.

Lemma comment_listing_after_post_witness :
  let d' := db (Server.postComment stale_body world_new_pic).1.2 in
    (∀ usr, usr ∈ users (db world_new_pic) → u_user_id usr = "u1" →
       ∃ r, r ∈ Db.commentsByPostId "p1" d'
            ∧ Db.cr_content r = "nice" ∧ Db.cr_user_id r = "u1"
            ∧ Db.cr_username r = u_username usr
            ∧ Db.cr_profilePicUrl r = u_profile_pic_url usr)
    ∧ ((∀ usr, usr ∈ users (db world_new_pic) → u_user_id usr ≠ "u1") →
       Db.commentsByPostId "p1" d' = Db.commentsByPostId "p1" (db world_new_pic))
    ∧ (∀ q, q ≠ "p1" →
       Db.commentsByPostId q d' = Db.commentsByPostId q (db world_new_pic)).
Proof.
  apply (comment_listing_after_post stale_body "p1" "u1" "nice" world_new_pic);
    [intros b Hb; by apply elem_of_nil in Hb | reflexivity..].
Defined.

(** * Accounts *)

Arguments Accounts.query : simpl never.
Arguments Nat.div : simpl never.

Section AccountsMonad.

Import Accounts.

Lemma acc_reliable_tick e : reliable e → reliable (tick e).
Proof.
  unfold reliable, tick. destruct e as [st fs ms t n k]; simpl.
  intros H b Hb. apply H. destruct fs; set_solver.
Qed.

Lemma acc_reliable_set_store st e : reliable e → reliable (set_store st e).
Proof. done. Qed.

Lemma acc_query_ok {T} q (run : Store → option (T * Store)) e a st :
  reliable e → run (store e) = Some (a, st) →
  query q run e = (Return a, set_store st (tick e), [EQuery q true]).
Proof.
  intros Hr Hrun. unfold query, tick.
  destruct (db_faults e) as [|[] fs] eqn:Hf; rewrite ?Hrun; try done.
  exfalso. specialize (Hr true). rewrite Hf in Hr.
  discriminate Hr. left.
Qed.

Lemma in_tail {A} (x : A) (l : list A) : x ∈ tail l → x ∈ l.
Proof. destruct l; [done|]. simpl. by right. Qed.

Lemma acc_reliable_sub e e' :
  reliable e → (∀ b, b ∈ db_faults e' → b ∈ db_faults e) → reliable e'.
Proof. intros Hr Hsub b Hb. apply Hr, Hsub, Hb. Qed.

End AccountsMonad.

#[global] Hint Resolve acc_reliable_tick acc_reliable_set_store : world.

(** The fault schedule only ever loses its head. *)
Ltac acc_reliable :=
  match goal with
  | Hr : Accounts.reliable ?e |- Accounts.reliable _ =>
      apply (acc_reliable_sub e); [exact Hr|];
      simpl; intros ? ?; eauto 10 using in_tail
  end.

Ltac acc_query :=
  erewrite acc_query_ok; [| acc_reliable | reflexivity]; simpl.

Ltac unfold_acc :=
  unfold Accounts.try_catch, mbind, Accounts.Acc_bind, mret, Accounts.Acc_ret,
    Accounts.get_clock, Accounts.uuidv4, Accounts.bcrypt_hash,
    Accounts.broadcast; simpl.

Section ResetTokens.

Import Accounts.

Lemma expiry_seconds t : expiry t = t / 1000 + 3600.
Proof.
  unfold expiry. change (60 * 60 * 1000) with (3600 * 1000).
  by rewrite Nat.div_add.
Qed.

Lemma savePasswordResetToken_ok userId token e :
  reliable e →
  savePasswordResetToken userId token e =
    (Return true,
     set_store
       (set_tokens
          (filter (λ r, rt_user_id r ≠ userId) (reset_tokens (store e))
           ++ [mkResetToken userId token (expiry (clock_ms e))])
          (store e))
       (tick (tick e)),
     [EQuery DeleteTokensOfUser true; EQuery InsertToken true]).
Proof.
  intros Hr. unfold savePasswordResetToken. unfold_acc.
  acc_query. acc_query. reflexivity.
Qed.

Lemma head_is_Some_elem {A} (l : list A) : is_Some (head l) ↔ ∃ x, x ∈ l.
Proof.
  destruct l as [|x l]; simpl.
  - split; [by intros [? ?]|]. by intros [? ?%elem_of_nil].
  - split; [|by eauto]. intros _. exists x. left.
Qed.

(** The rows of the join of [findUserByToken]. *)
Lemma userByToken_elem token now_s st row :
  row ∈ (a ← accounts st;
         r ← filter (λ r, rt_user_id r = a_user_id a ∧ rt_token r = token
                          ∧ now_s < rt_expires_at r) (reset_tokens st);
         [mkTokenRow (a_user_id a) (a_username a) (a_email a)])
  ↔ ∃ a r, a ∈ accounts st ∧ r ∈ reset_tokens st
           ∧ rt_user_id r = a_user_id a ∧ rt_token r = token
           ∧ now_s < rt_expires_at r
           ∧ row = mkTokenRow (a_user_id a) (a_username a) (a_email a).
Proof.
  rewrite list_elem_of_bind. split.
  - intros (a & Hrow & Ha). apply list_elem_of_bind in Hrow as (r & Hrow & Hr).
    apply list_elem_of_singleton in Hrow.
    apply list_elem_of_filter in Hr as [(? & ? & ?) ?]. by exists a, r.
  - intros (a & r & ? & ? & ? & ? & ? & ->). exists a. split; [|done].
    apply list_elem_of_bind. exists r. split; [by left|].
    by apply list_elem_of_filter.
Qed.

Lemma userByToken_spec token now_s st row :
  userByToken token now_s st = Some row →
  ∃ a r, a ∈ accounts st ∧ r ∈ reset_tokens st
         ∧ rt_user_id r = a_user_id a ∧ rt_token r = token
         ∧ now_s < rt_expires_at r
         ∧ row = mkTokenRow (a_user_id a) (a_username a) (a_email a).
Proof.
  unfold userByToken. intros Hhead. apply userByToken_elem.
  destruct (_ ≫= _) as [|x l]; [done|]. injection Hhead as ->. left.
Qed.

Lemma userByToken_exists token now_s st a r :
  a ∈ accounts st → r ∈ reset_tokens st →
  rt_user_id r = a_user_id a → rt_token r = token → now_s < rt_expires_at r →
  is_Some (userByToken token now_s st).
Proof.
  intros. unfold userByToken. apply head_is_Some_elem.
  eexists. apply userByToken_elem. by exists a, r.
Qed.

End ResetTokens.

(** X14: [savePasswordResetToken] and [findUserByToken].  For an existing
    user and a token string no other user holds, saving without storage
    failure leaves the user with exactly one token row, the new one
    (older tokens of the user are deleted); and at a later clock reading
    [t'] the token finds a user, and then that user, exactly while
    [t' / 1000 < t / 1000 + 3600] in whole seconds, [t] being the clock at
    saving time: the token is good for one hour and not longer. *)
Theorem reset_token_window (userId token : string) (e : Accounts.Env) :
  Accounts.reliable e →
  userId ∈ Accounts.a_user_id <$> Accounts.accounts (Accounts.store e) →
  (∀ r, r ∈ Accounts.reset_tokens (Accounts.store e) →
        Accounts.rt_token r = token → Accounts.rt_user_id r = userId) →
  let st := Accounts.store (Accounts.savePasswordResetToken userId token e).1.2 in
  filter (λ r, Accounts.rt_user_id r = userId) (Accounts.reset_tokens st)
    = [Accounts.mkResetToken userId token
         (Accounts.clock_ms e / 1000 + 3600)]
  ∧ ∀ t',
      (∃ row, Accounts.userByToken token (t' / 1000) st = Some row
              ∧ Accounts.tr_user_id row = userId)
      ↔ t' / 1000 < Accounts.clock_ms e / 1000 + 3600.
Proof.
  intros Hr Huser Hfresh st. subst st.
  rewrite savePasswordResetToken_ok by done.
  cbn [fst snd Accounts.store Accounts.set_store].
  rewrite expiry_seconds.
  set (new := Accounts.mkResetToken userId token (Accounts.clock_ms e / 1000 + 3600)).
  set (st := Accounts.set_tokens _ _).
  assert (Accounts.reset_tokens st
          = filter (λ r, Accounts.rt_user_id r ≠ userId)
              (Accounts.reset_tokens (Accounts.store e)) ++ [new]) as Htokens
    by done.
  assert (Accounts.accounts st = Accounts.accounts (Accounts.store e)) as Hacc
    by done.
  clearbody st. split.
  - rewrite Htokens, filter_app.
    rewrite (filter_complement_nil (λ r, Accounts.rt_user_id r = userId)).
    by rewrite filter_cons_True.
  - assert (∀ r, r ∈ Accounts.reset_tokens st →
                 Accounts.rt_token r = token → r = new) as Honly.
    { intros r Hin Htok. rewrite Htokens in Hin.
      apply elem_of_app in Hin as [Hold|Hnew].
      - apply list_elem_of_filter in Hold as [Hne Hold].
        by apply Hfresh in Hold.
      - by apply list_elem_of_singleton in Hnew. }
    intros t'. split.
    + intros (row & (a & r & _ & Hin & _ & Htok & Hlt & _)%userByToken_spec & _).
      apply Honly in Hin; [|done]. by subst r.
    + intros Hlt. apply list_elem_of_fmap in Huser as (a & Hid & Ha).
      destruct (userByToken_exists token (t' / 1000) st a new) as [row Hrow];
        [by rewrite Hacc | rewrite Htokens; apply elem_of_app; right; left
        | done..|].
      exists row. split; [exact Hrow|].
      apply userByToken_spec in Hrow as (a' & r & _ & Hin & Hid' & Htok & _ & ->).
      apply Honly in Hin; [|done]. subst r. done.
Qed.

Lemma reset_token_window_witness :
  let st := Accounts.store (Accounts.savePasswordResetToken "u1" "tok" env1).1.2 in
  filter (λ r, Accounts.rt_user_id r = "u1") (Accounts.reset_tokens st)
    = [Accounts.mkResetToken "u1" "tok" (Accounts.clock_ms env1 / 1000 + 3600)]
  ∧ ∀ t',
      (∃ row, Accounts.userByToken "tok" (t' / 1000) st = Some row
              ∧ Accounts.tr_user_id row = "u1")
      ↔ t' / 1000 < Accounts.clock_ms env1 / 1000 + 3600.
Proof.
  apply (reset_token_window "u1" "tok" env1).
  - intros b Hb. by apply elem_of_nil in Hb.
  - simpl. left.
  - intros r Hr. by apply elem_of_nil in Hr.
Defined.

Section ResetPassword.

Import Accounts.

Variable hash : nat → string → string.
Variable compare : string → string → bool.

Lemma long_is_truthy s : 8 ≤ Accounts.js_length s → truthy_str (Some s) = Some s.
Proof. destruct s; simpl; [lia|done]. Qed.

Lemma resetPassword_ok token pw row e :
  reliable e →
  truthy (Some token) = true → 8 ≤ Accounts.js_length pw →
  userByToken token (clock_ms e / 1000) (store e) = Some row →
  ∃ e',
    resetPassword hash (Some token) (Some pw) e =
      (Return (mkReply 200 true
                 "Password has been successfully reset. Please log in."),
       e',
       [EQuery SelectUserByToken true; EQuery UpdatePassword true;
        EQuery DeleteToken true])
    ∧ reliable e'
    ∧ store e' = after_reset token (tr_user_id row) (hash (next_salt e) pw) (store e).
Proof.
  intros Hr Htok Hlen Hrow. unfold resetPassword.
  apply truthy_str_Some in Htok as (? & [= <-] & ->).
  rewrite long_is_truthy by done.
  destruct (decide (Accounts.js_length pw < 8)); [lia|].
  unfold findUserByToken, updateUserPassword, deletePasswordResetToken.
  unfold_acc. acc_query. rewrite Hrow. simpl. acc_query. acc_query.
  eexists. split; [reflexivity|]. split; [|done].
  acc_reliable.
Qed.

Lemma token_gone token userId newHash st now_s :
  userByToken token now_s (after_reset token userId newHash st) = None.
Proof.
  destruct (userByToken _ _ _) as [row|] eqn:Hrow; [|done].
  apply userByToken_spec in Hrow as (a & r & _ & Hin & _ & Htok & _).
  simpl in Hin. apply list_elem_of_filter in Hin as [Hne _]. done.
Qed.

Lemma resetPassword_invalid token pw e :
  reliable e →
  truthy (Some token) = true → 8 ≤ Accounts.js_length pw →
  userByToken token (clock_ms e / 1000) (store e) = None →
  resetPassword hash (Some token) (Some pw) e =
    (Return (mkReply 400 false "Invalid or expired reset token."),
     tick e, [EQuery SelectUserByToken true]).
Proof.
  intros Hr Htok Hlen Hrow. unfold resetPassword.
  apply truthy_str_Some in Htok as (? & [= <-] & ->).
  rewrite long_is_truthy by done.
  destruct (decide (Accounts.js_length pw < 8)); [lia|].
  unfold findUserByToken. unfold_acc. acc_query. by rewrite Hrow.
Qed.

End ResetPassword.

(** X15: [POST /api/reset-password] with a token that is valid now and a
    new password whose length, as JavaScript counts it (in UTF-16 code
    units), is at least 8, without storage failure: the
    answer is 200; every account of the token's user then holds the hash
    of the new password and the other accounts are as before; the token
    is deleted, so the same token, presented again at any time with any
    acceptable password, is answered 400 "Invalid or expired reset
    token." and changes nothing. *)
Theorem reset_password_once (hash : nat → string → string)
    (token pw pw2 : string) (row : Accounts.TokenRow) (e : Accounts.Env) (t2 : nat) :
  Accounts.reliable e →
  truthy (Some token) = true →
  8 ≤ Accounts.js_length pw → 8 ≤ Accounts.js_length pw2 →
  Accounts.userByToken token (Accounts.clock_ms e / 1000) (Accounts.store e)
    = Some row →
  let r1 := Accounts.resetPassword hash (Some token) (Some pw) e in
  let e1 := Accounts.set_clock t2 r1.1.2 in
  let r2 := Accounts.resetPassword hash (Some token) (Some pw2) e1 in
  Accounts.status <$> (match r1.1.1 with Accounts.Return rep => Some rep | _ => None end)
    = Some 200
  ∧ Accounts.accounts (Accounts.store r1.1.2)
      = Accounts.set_hash (Accounts.tr_user_id row)
          (hash (Accounts.next_salt e) pw)
          <$> Accounts.accounts (Accounts.store e)
  ∧ (∀ r, r ∈ Accounts.reset_tokens (Accounts.store r1.1.2) →
          Accounts.rt_token r ≠ token)
  ∧ r2.1.1 = Accounts.Return
               (Accounts.mkReply 400 false "Invalid or expired reset token.")
  ∧ Accounts.store r2.1.2 = Accounts.store r1.1.2.
Proof.
  intros Hr Htok Hlen Hlen2 Hrow r1 e1 r2. subst r1 e1 r2.
  destruct (resetPassword_ok hash token pw row e Hr Htok Hlen Hrow)
    as (e' & -> & Hr' & Hst).
  cbn [fst snd]. split_and!.
  - done.
  - by rewrite Hst.
  - intros r. rewrite Hst. simpl. intros Hin%list_elem_of_filter. tauto.
  - rewrite resetPassword_invalid; try done.
    simpl. rewrite Hst. apply token_gone.
  - rewrite resetPassword_invalid; try done.
    simpl. rewrite Hst. apply token_gone.
Qed.

Lemma reset_password_once_witness :
  let r1 := Accounts.resetPassword plain_hash (Some "tok") (Some "new-password")
              env_token in
  let e1 := Accounts.set_clock 4800 r1.1.2 in
  let r2 := Accounts.resetPassword plain_hash (Some "tok") (Some "other-password")
              e1 in
  Accounts.status <$> (match r1.1.1 with Accounts.Return rep => Some rep | _ => None end)
    = Some 200
  ∧ Accounts.accounts (Accounts.store r1.1.2)
      = Accounts.set_hash (Accounts.tr_user_id
                             (Accounts.mkTokenRow "u1" "alice" "alice@example.org"))
          (plain_hash (Accounts.next_salt env_token) "new-password")
          <$> Accounts.accounts (Accounts.store env_token)
  ∧ (∀ r, r ∈ Accounts.reset_tokens (Accounts.store r1.1.2) →
          Accounts.rt_token r ≠ "tok")
  ∧ r2.1.1 = Accounts.Return
               (Accounts.mkReply 400 false "Invalid or expired reset token.")
  ∧ Accounts.store r2.1.2 = Accounts.store r1.1.2.
Proof.
  apply (reset_password_once plain_hash "tok" "new-password" "other-password"
           (Accounts.mkTokenRow "u1" "alice" "alice@example.org") env_token 4800).
  - intros b Hb. by apply elem_of_nil in Hb.
  - reflexivity.
  - simpl. lia.
  - simpl. lia.
  - reflexivity.
Defined.

(** X16: [POST /api/reset-password], for every request and whichever
    statements fail: the route always answers; unless the answer is 200
    the token table is untouched (a failed reset never uses the token
    up); an answer 400 leaves the whole store untouched; the password
    of an account changes only when the token found a user, the store
    being as before otherwise; and a new password whose length, as
    JavaScript counts it (in UTF-16 code units), is below 8 is answered
    400. *)
Theorem reset_password_failure_keeps_token (hash : nat → string → string)
    (token newPassword : option string) (e : Accounts.Env) :
  let r := Accounts.resetPassword hash token newPassword e in
  ∃ rep,
    r.1.1 = Accounts.Return rep
    ∧ (Accounts.status rep ≠ 200 →
       Accounts.reset_tokens (Accounts.store r.1.2)
         = Accounts.reset_tokens (Accounts.store e))
    ∧ (Accounts.status rep = 400 → Accounts.store r.1.2 = Accounts.store e)
    ∧ ((∀ tok, token = Some tok →
          Accounts.userByToken tok (Accounts.clock_ms e / 1000) (Accounts.store e)
            = None) →
       Accounts.store r.1.2 = Accounts.store e)
    ∧ (∀ pw, newPassword = Some pw → Accounts.js_length pw < 8 →
             Accounts.status rep = 400).
Proof.
  unfold Accounts.resetPassword, truthy_str.
  destruct token as [tok|]; [|simpl; eexists; split_and!; done].
  destruct (truthy (Some tok)); [|simpl; eexists; split_and!; done].
  destruct newPassword as [pw|]; [|simpl; eexists; split_and!; done].
  destruct (truthy (Some pw)); [|simpl; eexists; split_and!; done].
  destruct (decide (Accounts.js_length pw < 8)); [simpl; eexists; split_and!; done|].
  unfold Accounts.findUserByToken, Accounts.updateUserPassword,
    Accounts.deletePasswordResetToken, Accounts.query. unfold_acc.
  destruct (Accounts.userByToken tok _ _) as [row|] eqn:Hrow;
    destruct (Accounts.db_faults e) as [|[] [|[] [|[] fs]]]; simpl;
    eexists; (split; [reflexivity|]); simpl;
    (split_and!; [try done..| |]);
    try (by destruct (Accounts.store e));
    try (intros Hnone; specialize (Hnone tok eq_refl); congruence);
    try (intros pw0 [= <-] Hshort; lia);
    done.
Qed.

(** The length that the route tests is the JavaScript one: five letters
    with an accent (ten bytes in UTF-8, five UTF-16 code units) are too
    short, four emoji (sixteen bytes, eight code units) are not. *)
Example reset_password_length_in_code_units :
  Accounts.js_length "ééééé" = 5
  ∧ (Accounts.resetPassword plain_hash (Some "tok") (Some "ééééé") env_token).1.1
      = Accounts.Return
          (Accounts.mkReply 400 false
             "New password must be at least 8 characters long.")
  ∧ Accounts.js_length "😀😀😀😀" = 8
  ∧ Accounts.status
      <$> (match (Accounts.resetPassword plain_hash (Some "tok")
                    (Some "😀😀😀😀") env_token).1.1 with
           | Accounts.Return rep => Some rep
           | _ => None
           end)
      = Some 200.
Proof. split_and!; reflexivity. Qed.

Section ForgotPassword.

Import Accounts.

Lemma sendMail_sent to token e :
  ∃ sent e', sendMail to token e = (Return (), e', [EMail to token sent])
             ∧ store e' = store e.
Proof.
  unfold sendMail. destruct (mail_faults e) as [|[] fs]; by eexists _, _.
Qed.

End ForgotPassword.

(** X17: [POST /api/forgot-password] with a non-empty email and no
    database failure always answers 200 with the same message, whether or
    not the address belongs to an account and whether or not the mail
    could be sent.  For an unknown address it runs one SELECT and changes
    nothing.  For a known one it leaves the user with exactly one token,
    a fresh one that expires an hour later, and hands one mail to the
    transport, addressed to the [email] field of a row that has none. *)
Theorem forgot_password_uniform (email : option string) (em : string)
    (e : Accounts.Env) :
  Accounts.reliable e →
  truthy_str email = Some em →
  let r := Accounts.forgotPassword email e in
  r.1.1 = Accounts.Return (Accounts.mkReply 200 true Accounts.reset_link_sent)
  ∧ (Accounts.userByEmail em (Accounts.store e) = None →
     Accounts.store r.1.2 = Accounts.store e
     ∧ r.2 = [Accounts.EQuery Accounts.SelectUserByEmail true])
  ∧ (∀ row, Accounts.userByEmail em (Accounts.store e) = Some row →
     filter (λ t, Accounts.rt_user_id t = Accounts.lr_user_id row)
       (Accounts.reset_tokens (Accounts.store r.1.2))
       = [Accounts.mkResetToken (Accounts.lr_user_id row)
            (uuid_of (Accounts.next_uuid e))
            (Accounts.clock_ms e / 1000 + 3600)]
     ∧ Accounts.accounts (Accounts.store r.1.2)
         = Accounts.accounts (Accounts.store e)
     ∧ ∃ sent,
         r.2 = [Accounts.EQuery Accounts.SelectUserByEmail true;
                Accounts.EQuery Accounts.DeleteTokensOfUser true;
                Accounts.EQuery Accounts.InsertToken true;
                Accounts.EMail None (uuid_of (Accounts.next_uuid e)) sent]).
Proof.
  intros Hr Hem r. subst r. unfold Accounts.forgotPassword. rewrite Hem.
  unfold Accounts.findUserByEmail. unfold_acc. acc_query.
  destruct (Accounts.userByEmail em (Accounts.store e)) as [row|]; simpl.
  - rewrite savePasswordResetToken_ok by acc_reliable. simpl.
    match goal with
    | |- context [Accounts.sendMail ?to ?tok ?env] =>
        destruct (sendMail_sent to tok env) as (sent & e' & -> & Hst)
    end.
    simpl. split_and!; [done|done|]. intros ? [= <-]. rewrite Hst. simpl.
    rewrite expiry_seconds. split_and!; [|done|by exists sent].
    rewrite filter_app.
    rewrite (filter_complement_nil
               (λ t, Accounts.rt_user_id t = Accounts.lr_user_id row)).
    by rewrite filter_cons_True.
  - split_and!; [done| |done]. intros _. split; [|done].
    by destruct (Accounts.store e).
Qed.

Lemma forgot_password_uniform_witness :
  let r := Accounts.forgotPassword (Some "alice@example.org") env1 in
  r.1.1 = Accounts.Return (Accounts.mkReply 200 true Accounts.reset_link_sent)
  ∧ (Accounts.userByEmail "alice@example.org" (Accounts.store env1) = None →
     Accounts.store r.1.2 = Accounts.store env1
     ∧ r.2 = [Accounts.EQuery Accounts.SelectUserByEmail true])
  ∧ (∀ row, Accounts.userByEmail "alice@example.org" (Accounts.store env1)
              = Some row →
     filter (λ t, Accounts.rt_user_id t = Accounts.lr_user_id row)
       (Accounts.reset_tokens (Accounts.store r.1.2))
       = [Accounts.mkResetToken (Accounts.lr_user_id row)
            (uuid_of (Accounts.next_uuid env1))
            (Accounts.clock_ms env1 / 1000 + 3600)]
     ∧ Accounts.accounts (Accounts.store r.1.2)
         = Accounts.accounts (Accounts.store env1)
     ∧ ∃ sent,
         r.2 = [Accounts.EQuery Accounts.SelectUserByEmail true;
                Accounts.EQuery Accounts.DeleteTokensOfUser true;
                Accounts.EQuery Accounts.InsertToken true;
                Accounts.EMail None (uuid_of (Accounts.next_uuid env1)) sent]).
Proof.
  apply (forgot_password_uniform (Some "alice@example.org") "alice@example.org" env1);
    [|reflexivity].
  intros b Hb. by apply elem_of_nil in Hb.
Defined.

(** X18: [POST /api/signup], for every request and whichever statement
    fails: the route always answers and never with 409, because [query]
    rethrows every driver error without its [code]; a duplicate email,
    username or id is answered 500 "Server error.".  An answer 200 means
    that exactly one account was appended, holding the bcrypt hash of the
    password and a fresh id; any other answer leaves the store as it
    was. *)
Theorem signup_outcomes (hash : nat → string → string)
    (email password username : option string) (e : Accounts.Env) :
  let r := Accounts.signup hash email password username e in
  ∃ rep,
    r.1.1 = Accounts.Return rep
    ∧ Accounts.status rep ≠ 409
    ∧ (Accounts.status rep = 200 →
       ∃ em pw un,
         email = Some em ∧ password = Some pw ∧ username = Some un
         ∧ Accounts.accounts (Accounts.store r.1.2)
             = Accounts.accounts (Accounts.store e)
               ++ [Accounts.mkAccount (uuid_of (Accounts.next_uuid e)) em
                     (hash (Accounts.next_salt e) pw) un None])
    ∧ (Accounts.status rep ≠ 200 → Accounts.store r.1.2 = Accounts.store e)
    ∧ (∀ em pw un,
         truthy_str email = Some em → truthy_str password = Some pw →
         truthy_str username = Some un →
         Accounts.taken (uuid_of (Accounts.next_uuid e)) em un (Accounts.store e)
           = true →
         rep = Accounts.mkReply 500 false "Server error.").
Proof.
  unfold Accounts.signup.
  destruct (truthy_str email) as [em|] eqn:Hem;
    [|simpl; eexists; split_and!; done].
  destruct (truthy_str password) as [pw|] eqn:Hpw;
    [|simpl; eexists; split_and!; done].
  destruct (truthy_str username) as [un|] eqn:Hun;
    [|simpl; eexists; split_and!; done].
  apply truthy_str_inv in Hem, Hpw, Hun. subst.
  unfold Accounts.createUser, Accounts.query. unfold_acc.
  destruct (Accounts.taken _ em un (Accounts.store e)) eqn:Htaken;
    destruct (Accounts.db_faults e) as [|[] fs]; simpl;
    eexists; (split; [reflexivity|]); simpl;
    (split_and!; [done|..]);
    try (intros _; by eexists _, _, _);
    try (intros _; by destruct (Accounts.store e));
    try (intros ? ? ? [= <-] [= <-] [= <-] ?; congruence);
    try done.
Qed.

Section Login.

Import Accounts.

Variable hash : nat → string → string.
Variable compare : string → string → bool.

Lemma taken_false_email userId em un st a :
  taken userId em un st = false → a ∈ accounts st → a_email a ≠ em.
Proof.
  unfold taken. intros Hno Ha Heq.
  assert (existsb (λ a, bool_decide (a_user_id a = userId)
                        || bool_decide (a_email a = em)
                        || bool_decide (a_username a = un)) (accounts st) = true)
    as Hex; [|congruence].
  apply existsb_exists. exists a. split; [by apply list_elem_of_In|].
  rewrite (bool_decide_true (a_email a = em)) by done.
  by destruct (bool_decide (a_user_id a = userId)).
Qed.

Lemma userByEmail_new userId em h un st :
  (∀ a, a ∈ accounts st → a_email a ≠ em) →
  userByEmail em (set_accounts (accounts st ++ [mkAccount userId em h un None]) st)
    = Some (mkLoginRow userId h un).
Proof.
  intros Hno. unfold userByEmail. simpl.
  rewrite filter_app, filter_cons_True by done.
  assert (filter (λ a, a_email a = em) (accounts st) = []) as ->; [|done].
  induction (accounts st) as [|a l IH]; [done|].
  rewrite filter_cons_False by (apply Hno; left).
  apply IH. intros a' Ha'. apply Hno. by right.
Qed.

Lemma signup_ok em pw un e :
  reliable e →
  truthy (Some em) = true → truthy (Some pw) = true → truthy (Some un) = true →
  taken (uuid_of (next_uuid e)) em un (store e) = false →
  ∃ e',
    signup hash (Some em) (Some pw) (Some un) e
      = (Return (mkReply 200 true "User created successfully."), e',
         [EQuery InsertUser true])
    ∧ reliable e'
    ∧ store e' = set_accounts
                   (accounts (store e)
                    ++ [mkAccount (uuid_of (next_uuid e)) em
                          (hash (next_salt e) pw) un None]) (store e).
Proof.
  intros Hr Hem Hpw Hun Hfree. unfold signup.
  apply truthy_str_Some in Hem as (? & [= <-] & ->).
  apply truthy_str_Some in Hpw as (? & [= <-] & ->).
  apply truthy_str_Some in Hun as (? & [= <-] & ->).
  unfold createUser. unfold_acc.
  erewrite acc_query_ok; [| acc_reliable | simpl; rewrite Hfree; reflexivity].
  simpl. eexists. split; [reflexivity|]. split; [acc_reliable|done].
Qed.

Lemma login_reply em pw e :
  reliable e →
  truthy (Some em) = true → truthy (Some pw) = true →
  (login compare (Some em) (Some pw) e).1.1 =
    Return
      match userByEmail em (store e) with
      | Some user =>
          if compare pw (lr_password_hash user)
          then mkReply 200 true "Login successful."
          else mkReply 401 false "Invalid credentials."
      | None => mkReply 401 false "Invalid credentials."
      end.
Proof.
  intros Hr Hem Hpw. unfold login.
  apply truthy_str_Some in Hem as (? & [= <-] & ->).
  apply truthy_str_Some in Hpw as (? & [= <-] & ->).
  unfold findUserByEmail. unfold_acc. acc_query.
  destruct (userByEmail em (store e)) as [user|]; [|done]. simpl.
  by destruct (compare pw (lr_password_hash user)).
Qed.

End Login.

(** X19: signup, then login, without storage failure and with a bcrypt
    whose [compare] accepts a password against its own hash.  After a
    signup with an email, username and id that were free, a login with
    the same email and password is answered 200; a login with a password
    that [compare] rejects and a login with an email no account has get
    one and the same answer, 401 "Invalid credentials.". *)
Theorem signup_then_login (hash : nat → string → string)
    (compare : string → string → bool) (em pw un : string) (e : Accounts.Env) :
  (∀ salt p, compare p (hash salt p) = true) →
  Accounts.reliable e →
  truthy (Some em) = true → truthy (Some pw) = true → truthy (Some un) = true →
  Accounts.taken (uuid_of (Accounts.next_uuid e)) em un (Accounts.store e) = false →
  let e1 := (Accounts.signup hash (Some em) (Some pw) (Some un) e).1.2 in
  (Accounts.login compare (Some em) (Some pw) e1).1.1
    = Accounts.Return (Accounts.mkReply 200 true "Login successful.")
  ∧ (∀ pw', truthy (Some pw') = true →
            compare pw' (hash (Accounts.next_salt e) pw) = false →
            (Accounts.login compare (Some em) (Some pw') e1).1.1
              = Accounts.Return (Accounts.mkReply 401 false "Invalid credentials."))
  ∧ (∀ em' pw', truthy (Some em') = true → truthy (Some pw') = true →
                Accounts.userByEmail em' (Accounts.store e1) = None →
                (Accounts.login compare (Some em') (Some pw') e1).1.1
                  = Accounts.Return
                      (Accounts.mkReply 401 false "Invalid credentials.")).
Proof.
  intros Hcmp Hr Hem Hpw Hun Hfree e1. subst e1.
  destruct (signup_ok hash em pw un e Hr Hem Hpw Hun Hfree) as (e' & -> & Hr' & Hst).
  cbn [fst snd].
  assert (Accounts.userByEmail em (Accounts.store e')
          = Some (Accounts.mkLoginRow (uuid_of (Accounts.next_uuid e))
                    (hash (Accounts.next_salt e) pw) un)) as Hrow.
  { rewrite Hst. apply userByEmail_new. intros a.
    by apply taken_false_email with (uuid_of (Accounts.next_uuid e)) un. }
  split_and!.
  - rewrite login_reply by done. rewrite Hrow. simpl. by rewrite Hcmp.
  - intros pw' Hpw' Hrej. rewrite login_reply by done.
    rewrite Hrow. simpl. by rewrite Hrej.
  - intros em' pw' Hem' Hpw' Hnone. rewrite login_reply by done.
    by rewrite Hnone.
Qed.

Lemma signup_then_login_witness :
  let e1 := (Accounts.signup plain_hash (Some "bob@example.org") (Some "secret")
               (Some "bob") env1).1.2 in
  (Accounts.login plain_compare (Some "bob@example.org") (Some "secret") e1).1.1
    = Accounts.Return (Accounts.mkReply 200 true "Login successful.")
  ∧ (∀ pw', truthy (Some pw') = true →
            plain_compare pw' (plain_hash (Accounts.next_salt env1) "secret") = false →
            (Accounts.login plain_compare (Some "bob@example.org") (Some pw') e1).1.1
              = Accounts.Return (Accounts.mkReply 401 false "Invalid credentials."))
  ∧ (∀ em' pw', truthy (Some em') = true → truthy (Some pw') = true →
                Accounts.userByEmail em' (Accounts.store e1) = None →
                (Accounts.login plain_compare (Some em') (Some pw') e1).1.1
                  = Accounts.Return
                      (Accounts.mkReply 401 false "Invalid credentials.")).
Proof.
  apply (signup_then_login plain_hash plain_compare "bob@example.org" "secret"
           "bob" env1).
  - intros salt p. unfold plain_compare, plain_hash. by apply bool_decide_eq_true.
  - intros b Hb. by apply elem_of_nil in Hb.
  - reflexivity.
  - reflexivity.
  - reflexivity.
  - reflexivity.
Defined.

Section ProfilePicture.

Import Accounts.

Lemma filter_account_map (f : Account → Account) v (l : list Account) :
  (∀ a, a_user_id (f a) = a_user_id a) →
  filter (λ a, a_user_id a = v) (f <$> l)
    = f <$> filter (λ a, a_user_id a = v) l.
Proof.
  intros Hf. induction l as [|a l IH]; [done|]. csimpl.
  destruct (decide (a_user_id a = v)).
  - rewrite !filter_cons_True by (by rewrite ?Hf). csimpl. by rewrite IH.
  - by rewrite !filter_cons_False by (by rewrite ?Hf).
Qed.

Lemma set_pic_id userId url a : a_user_id (set_pic userId url a) = a_user_id a.
Proof. unfold set_pic. by destruct (decide _). Qed.

Lemma profilePic_updated userId url v st :
  profilePic v (set_accounts (set_pic userId url <$> accounts st) st)
    = if decide (v = userId)
      then (if existsb (λ a, bool_decide (a_user_id a = userId)) (accounts st)
            then Some url else None)
      else profilePic v st.
Proof.
  unfold profilePic. simpl.
  rewrite filter_account_map by apply set_pic_id.
  destruct (decide (v = userId)) as [->|Hne].
  - destruct (existsb _ _) eqn:Hex.
    + apply existsb_exists in Hex as (a & Ha%list_elem_of_In & Hid%bool_decide_eq_true).
      destruct (filter _ (accounts st)) as [|a' l] eqn:Hf.
      * assert (a ∈ filter (λ a, a_user_id a = userId) (accounts st)) as Hin
          by (by apply list_elem_of_filter).
        rewrite Hf in Hin. by apply elem_of_nil in Hin.
      * assert (a' ∈ filter (λ a, a_user_id a = userId) (accounts st)) as Hin
          by (rewrite Hf; left).
        apply list_elem_of_filter in Hin as [Hid' _].
        simpl. unfold set_pic. by rewrite decide_True.
    + destruct (filter _ (accounts st)) as [|a' l] eqn:Hf; [done|].
      assert (a' ∈ filter (λ a, a_user_id a = userId) (accounts st)) as Hin
        by (rewrite Hf; left).
      apply list_elem_of_filter in Hin as [Hid' Hin].
      assert (existsb (λ a, bool_decide (a_user_id a = userId)) (accounts st) = true)
        as Hex'; [|congruence].
      apply existsb_exists. exists a'. split; [by apply list_elem_of_In|].
      by apply bool_decide_eq_true.
  - destruct (filter _ (accounts st)) as [|a' l] eqn:Hf; [done|].
    assert (a' ∈ filter (λ a, a_user_id a = v) (accounts st)) as Hin
      by (rewrite Hf; left).
    apply list_elem_of_filter in Hin as [Hid' _].
    simpl. unfold set_pic. rewrite decide_False by congruence. done.
Qed.

Lemma set_pic_absent userId url (l : list Account) :
  existsb (λ a, bool_decide (a_user_id a = userId)) l = false →
  set_pic userId url <$> l = l.
Proof.
  induction l as [|a l IH]; [done|]. intros Hex. simpl in Hex.
  apply orb_false_iff in Hex as [Ha Hl]. apply bool_decide_eq_false in Ha.
  csimpl. rewrite (IH Hl). unfold set_pic. by rewrite decide_False.
Qed.

End ProfilePicture.

(** X20: [POST /api/profile/picture] with a non-empty userId and url and
    no database failure.  If the user has an account, the answer is 200,
    one profileUpdate event with that userId and url is broadcast, a
    following [getUserProfilePic] of the user yields the url and the
    pictures of all other users are as before.  If no account has that
    id, the answer is 500, nothing is broadcast and the store is
    unchanged. *)
Theorem update_picture_round_trip (userId url : string) (e : Accounts.Env) :
  Accounts.reliable e →
  truthy (Some userId) = true → truthy (Some url) = true →
  let r := Accounts.updatePicture (Some userId) (Some url) e in
  let known := existsb (λ a, bool_decide (Accounts.a_user_id a = userId))
                 (Accounts.accounts (Accounts.store e)) in
  (known = true →
     r.1.1 = Accounts.Return
               (Accounts.mkReply 200 true "Profile picture updated successfully.")
     ∧ r.2 = [Accounts.EQuery Accounts.UpdateProfilePic true;
              Accounts.EBroadcast "profileUpdate"
                (Accounts.profileUpdate userId url)]
     ∧ (Accounts.getUserProfilePic userId r.1.2).1.1 = Accounts.Return (Some url)
     ∧ ∀ v, v ≠ userId →
            Accounts.profilePic v (Accounts.store r.1.2)
              = Accounts.profilePic v (Accounts.store e))
  ∧ (known = false →
     r.1.1 = Accounts.Return
               (Accounts.mkReply 500 false "Failed to update profile picture.")
     ∧ r.2 = [Accounts.EQuery Accounts.UpdateProfilePic true]
     ∧ Accounts.store r.1.2 = Accounts.store e).
Proof.
  intros Hr Hu Hurl r known. subst r known. unfold Accounts.updatePicture.
  apply truthy_str_Some in Hu as (? & [= <-] & ->).
  apply truthy_str_Some in Hurl as (? & [= <-] & ->).
  unfold Accounts.updateUserProfilePic. unfold_acc. acc_query.
  destruct (existsb _ _) eqn:Hex; simpl; split; try done; intros _.
  - split_and!; [done..| |].
    + unfold Accounts.getUserProfilePic. acc_query.
      rewrite profilePic_updated, decide_True by done. by rewrite Hex.
    + intros v Hv. by rewrite profilePic_updated, decide_False.
  - split_and!; [done..|]. rewrite set_pic_absent by done.
    by destruct (Accounts.store e).
Qed.

Lemma update_picture_round_trip_witness :
  let r := Accounts.updatePicture (Some "u1") (Some "/pics/a.png") env1 in
  let known := existsb (λ a, bool_decide (Accounts.a_user_id a = "u1"))
                 (Accounts.accounts (Accounts.store env1)) in
  (known = true →
     r.1.1 = Accounts.Return
               (Accounts.mkReply 200 true "Profile picture updated successfully.")
     ∧ r.2 = [Accounts.EQuery Accounts.UpdateProfilePic true;
              Accounts.EBroadcast "profileUpdate"
                (Accounts.profileUpdate "u1" "/pics/a.png")]
     ∧ (Accounts.getUserProfilePic "u1" r.1.2).1.1
         = Accounts.Return (Some "/pics/a.png")
     ∧ ∀ v, v ≠ "u1" →
            Accounts.profilePic v (Accounts.store r.1.2)
              = Accounts.profilePic v (Accounts.store env1))
  ∧ (known = false →
     r.1.1 = Accounts.Return
               (Accounts.mkReply 500 false "Failed to update profile picture.")
     ∧ r.2 = [Accounts.EQuery Accounts.UpdateProfilePic true]
     ∧ Accounts.store r.1.2 = Accounts.store env1).
Proof.
  apply (update_picture_round_trip "u1" "/pics/a.png" env1);
    [|reflexivity..].
  intros b Hb. by apply elem_of_nil in Hb.
Defined.
